(** * The POSIX daemon lifecycle of transmission-daemon

    A shallow embedding of [daemon/daemon-posix.cc]: the self-pipe signal
    relay ([send_signal_to_pipe]), the dispatch thread
    ([signal_handler_thread_main], [handle_signal]) and the orchestrator
    ([dtr_daemon]).

    The C code talks to the kernel and to libc.  Here the process is a
    record [World] holding the file's statics, the part of the kernel state
    the code touches (descriptor table, signal dispositions, the pipe's
    content, [errno]) and the caller's out-parameters.  What the code cannot
    decide itself (does [fork] fail, what does [on_start] return, which
    signals arrive) is read from an environment [Env].  Every function of the
    source is a computation in the monad [M], which threads the [World] and
    stops at [abort()], at a failed [assert], at a null dereference or at a
    read that can never be served. *)

From stdpp Require Import gmap strings list.
From Stdlib Require Import ZArith Lia DecimalString.

Open Scope Z_scope.

(** ** Data *)

(** [void*] and function pointers are addresses. *)
Definition ptr := Z.
Definition fnptr := Z.

(** Modelled from the spec: [daemon.h], which declares [dtr_callbacks], is
    not among the sources.  The spec's callback table has three operations,
    Start(context, foreground) -> exit code, Stop(context) and
    Reconfigure(context); the code reaches them as the members [on_start],
    [on_stop] and [on_reconfigure] of the struct. *)
Record dtr_callbacks := {
  on_start : fnptr;
  on_stop : fnptr;
  on_reconfigure : fnptr
}.

(** Modelled from the spec: [tr_error] ([error.h]) is a human-readable
    message plus the originating OS error code. *)
Record tr_error := {
  code : Z;
  message : string
}.

(** What a descriptor refers to. *)
Inductive file :=
| Tty
| DevNull
| PipeRead
| PipeWrite
| OtherFile (path : string).

#[global] Instance file_eq_dec : EqDecision file.
Proof. solve_decision. Defined.

(** The only handler the file ever installs. *)
Inductive sighandler :=
| Handler_send_signal_to_pipe.

Inductive thread_state :=
| NoThread
| Running
| Joined.

(** What the process did, in program order of the thread that did it. *)
Inductive event :=
| EvDaemon (nochdir noclose : bool)
| EvFork
| EvSetsid
| EvOpen (path : string)
| EvDup2 (oldfd newfd : Z)
| EvClose (fd : Z)
| EvPipe
| EvPthreadCreate
| EvPthreadJoin
| EvSignal (sig : Z)
| EvWrite (fd : Z) (value : Z)
| CallStart (f : fnptr) (arg : ptr) (foreground : bool)
| CallVoid (f : fnptr) (arg : ptr).

Record World := {
  (* the statics of daemon-posix.cc *)
  callbacks : option dtr_callbacks;
  callback_arg : ptr;
  signal_pipe : Z * Z;
  (* libc and kernel *)
  errno : Z;
  fds : gmap Z file;
  pipe_buf : list Z;
  handlers : gmap Z sighandler;
  session_leader : bool;
  cwd : string;
  thread : thread_state;
  nwrites : nat;
  (* the caller's out-parameters *)
  exit_code : Z;
  error : option tr_error;
  (* logs: the calling thread, and the dispatch thread *)
  trace : list event;
  dispatched : list event
}.

Definition set_callbacks (v : option dtr_callbacks) (w : World) : World :=
  {| callbacks := v; callback_arg := callback_arg w; signal_pipe := signal_pipe w;
     errno := errno w; fds := fds w; pipe_buf := pipe_buf w; handlers := handlers w;
     session_leader := session_leader w; cwd := cwd w; thread := thread w;
     nwrites := nwrites w; exit_code := exit_code w; error := error w;
     trace := trace w; dispatched := dispatched w |}.

Definition set_callback_arg (v : ptr) (w : World) : World :=
  {| callbacks := callbacks w; callback_arg := v; signal_pipe := signal_pipe w;
     errno := errno w; fds := fds w; pipe_buf := pipe_buf w; handlers := handlers w;
     session_leader := session_leader w; cwd := cwd w; thread := thread w;
     nwrites := nwrites w; exit_code := exit_code w; error := error w;
     trace := trace w; dispatched := dispatched w |}.

Definition set_signal_pipe (v : Z * Z) (w : World) : World :=
  {| callbacks := callbacks w; callback_arg := callback_arg w; signal_pipe := v;
     errno := errno w; fds := fds w; pipe_buf := pipe_buf w; handlers := handlers w;
     session_leader := session_leader w; cwd := cwd w; thread := thread w;
     nwrites := nwrites w; exit_code := exit_code w; error := error w;
     trace := trace w; dispatched := dispatched w |}.

Definition set_errno (v : Z) (w : World) : World :=
  {| callbacks := callbacks w; callback_arg := callback_arg w; signal_pipe := signal_pipe w;
     errno := v; fds := fds w; pipe_buf := pipe_buf w; handlers := handlers w;
     session_leader := session_leader w; cwd := cwd w; thread := thread w;
     nwrites := nwrites w; exit_code := exit_code w; error := error w;
     trace := trace w; dispatched := dispatched w |}.

Definition set_fds (v : gmap Z file) (w : World) : World :=
  {| callbacks := callbacks w; callback_arg := callback_arg w; signal_pipe := signal_pipe w;
     errno := errno w; fds := v; pipe_buf := pipe_buf w; handlers := handlers w;
     session_leader := session_leader w; cwd := cwd w; thread := thread w;
     nwrites := nwrites w; exit_code := exit_code w; error := error w;
     trace := trace w; dispatched := dispatched w |}.

Definition set_pipe_buf (v : list Z) (w : World) : World :=
  {| callbacks := callbacks w; callback_arg := callback_arg w; signal_pipe := signal_pipe w;
     errno := errno w; fds := fds w; pipe_buf := v; handlers := handlers w;
     session_leader := session_leader w; cwd := cwd w; thread := thread w;
     nwrites := nwrites w; exit_code := exit_code w; error := error w;
     trace := trace w; dispatched := dispatched w |}.

Definition set_handlers (v : gmap Z sighandler) (w : World) : World :=
  {| callbacks := callbacks w; callback_arg := callback_arg w; signal_pipe := signal_pipe w;
     errno := errno w; fds := fds w; pipe_buf := pipe_buf w; handlers := v;
     session_leader := session_leader w; cwd := cwd w; thread := thread w;
     nwrites := nwrites w; exit_code := exit_code w; error := error w;
     trace := trace w; dispatched := dispatched w |}.

Definition set_session_leader (v : bool) (w : World) : World :=
  {| callbacks := callbacks w; callback_arg := callback_arg w; signal_pipe := signal_pipe w;
     errno := errno w; fds := fds w; pipe_buf := pipe_buf w; handlers := handlers w;
     session_leader := v; cwd := cwd w; thread := thread w;
     nwrites := nwrites w; exit_code := exit_code w; error := error w;
     trace := trace w; dispatched := dispatched w |}.

Definition set_cwd (v : string) (w : World) : World :=
  {| callbacks := callbacks w; callback_arg := callback_arg w; signal_pipe := signal_pipe w;
     errno := errno w; fds := fds w; pipe_buf := pipe_buf w; handlers := handlers w;
     session_leader := session_leader w; cwd := v; thread := thread w;
     nwrites := nwrites w; exit_code := exit_code w; error := error w;
     trace := trace w; dispatched := dispatched w |}.

Definition set_thread (v : thread_state) (w : World) : World :=
  {| callbacks := callbacks w; callback_arg := callback_arg w; signal_pipe := signal_pipe w;
     errno := errno w; fds := fds w; pipe_buf := pipe_buf w; handlers := handlers w;
     session_leader := session_leader w; cwd := cwd w; thread := v;
     nwrites := nwrites w; exit_code := exit_code w; error := error w;
     trace := trace w; dispatched := dispatched w |}.

Definition set_nwrites (v : nat) (w : World) : World :=
  {| callbacks := callbacks w; callback_arg := callback_arg w; signal_pipe := signal_pipe w;
     errno := errno w; fds := fds w; pipe_buf := pipe_buf w; handlers := handlers w;
     session_leader := session_leader w; cwd := cwd w; thread := thread w;
     nwrites := v; exit_code := exit_code w; error := error w;
     trace := trace w; dispatched := dispatched w |}.

Definition set_exit_code (v : Z) (w : World) : World :=
  {| callbacks := callbacks w; callback_arg := callback_arg w; signal_pipe := signal_pipe w;
     errno := errno w; fds := fds w; pipe_buf := pipe_buf w; handlers := handlers w;
     session_leader := session_leader w; cwd := cwd w; thread := thread w;
     nwrites := nwrites w; exit_code := v; error := error w;
     trace := trace w; dispatched := dispatched w |}.

Definition set_error (v : option tr_error) (w : World) : World :=
  {| callbacks := callbacks w; callback_arg := callback_arg w; signal_pipe := signal_pipe w;
     errno := errno w; fds := fds w; pipe_buf := pipe_buf w; handlers := handlers w;
     session_leader := session_leader w; cwd := cwd w; thread := thread w;
     nwrites := nwrites w; exit_code := exit_code w; error := v;
     trace := trace w; dispatched := dispatched w |}.

Definition set_trace (v : list event) (w : World) : World :=
  {| callbacks := callbacks w; callback_arg := callback_arg w; signal_pipe := signal_pipe w;
     errno := errno w; fds := fds w; pipe_buf := pipe_buf w; handlers := handlers w;
     session_leader := session_leader w; cwd := cwd w; thread := thread w;
     nwrites := nwrites w; exit_code := exit_code w; error := error w;
     trace := v; dispatched := dispatched w |}.

Definition set_dispatched (v : list event) (w : World) : World :=
  {| callbacks := callbacks w; callback_arg := callback_arg w; signal_pipe := signal_pipe w;
     errno := errno w; fds := fds w; pipe_buf := pipe_buf w; handlers := handlers w;
     session_leader := session_leader w; cwd := cwd w; thread := thread w;
     nwrites := nwrites w; exit_code := exit_code w; error := error w;
     trace := trace w; dispatched := v |}.

(** ** The monad of the process *)

(** Why a computation did not return to its caller. *)
Inductive halt :=
| Aborted        (* abort() *)
| AssertFailed   (* a failed assert() *)
| NullDeref      (* a member read through a null pointer *)
| Blocked        (* a blocking call nothing will ever wake *)
| OutOfFuel.     (* the loop bound of the model, proved unreachable below *)

Inductive outcome (A : Type) :=
| Ret (a : A) (w : World)
| Halt (why : halt) (w : World).
Arguments Ret {A} a w.
Arguments Halt {A} why w.

Definition M (A : Type) := World -> outcome A.

Definition ret {A} (a : A) : M A := fun w => Ret a w.

Definition bind {A B} (m : M A) (k : A -> M B) : M B :=
  fun w => match m w with
           | Ret a w' => k a w'
           | Halt why w' => Halt why w'
           end.

Definition halt_with {A} (why : halt) : M A := fun w => Halt why w.

Definition get {A} (f : World -> A) : M A := fun w => Ret (f w) w.

Definition modify (f : World -> World) : M unit := fun w => Ret tt (f w).

Definition log (e : event) : M unit := modify (fun w => set_trace (trace w ++ [e]) w).

Notation "'do' x <- c1 ; c2" := (bind c1 (fun x => c2))
  (at level 10, x name, c1 at level 100, c2 at level 200).

(** The final world of a run, however it ended. *)
Definition world_of {A} (o : outcome A) : World :=
  match o with
  | Ret _ w => w
  | Halt _ w => w
  end.

(** ** The environment *)

Inductive fork_result :=
| ForkFails (e : Z)          (* -1, errno = e *)
| ForkChild                  (* 0: the model follows the child *)
| ForkParent (pid : positive). (* the child's pid: the model follows the parent *)

(** [write] is the one call whose effect on [errno] matters when it succeeds
    (the handler restores [errno] after it), so its result says what [errno]
    holds afterwards in both cases. *)
Inductive write_result :=
| WriteOk (errno_after : Z)
| WriteFails (errno_after : Z).

(** For the other calls [None] is success and [Some e] is failure with
    [errno = e]. *)
Record Env := {
  HAVE_DAEMON : bool;          (* the condition of the #if inside dtr_daemon *)
  NDEBUG : bool;               (* assert() compiled out *)
  tr_strerror : Z -> string;   (* declared in utils.h, defined elsewhere *)
  os_daemon : option Z;
  os_fork : fork_result;
  os_setsid : option Z;
  os_open : option Z;
  os_pipe : option Z;
  os_pthread_create : Z;       (* the return value: 0, or an error number *)
  os_signal : Z -> option Z;   (* per signal number *)
  os_write : nat -> write_result; (* the n-th write of the process *)
  start_signals : list Z;      (* the signals delivered while on_start runs *)
  start_result : Z             (* what on_start returns *)
}.

(** ** Constants of the platform headers *)

Definition SIGHUP : Z := 1.
Definition SIGINT : Z := 2.
Definition SIGTERM : Z := 15.
Definition STDIN_FILENO : Z := 0.
Definition STDOUT_FILENO : Z := 1.
Definition STDERR_FILENO : Z := 2.
Definition EBADF : Z := 9.
Definition ESRCH : Z := 3.
Definition sizeof_int : Z := 4.

(** The result of [signal()]: [SIG_ERR], or the previous disposition. *)
Inductive sigret :=
| SIG_ERR
| SigPrevious (h : option sighandler).

Definition is_SIG_ERR (r : sigret) : bool :=
  match r with
  | SIG_ERR => true
  | SigPrevious _ => false
  end.

(** A thread handle stands for the start routine of its thread: the model
    runs the routine when the thread is joined (see [pthread_join_]). *)
Definition pthread_t := M unit.

(** ** Descriptors *)

(** POSIX: a new descriptor is the lowest-numbered one not open.  Among
    [0 .. size m] one is free; the search stops at the first. *)
Fixpoint first_free (m : gmap Z file) (fd : Z) (fuel : nat) : Z :=
  match fuel with
  | O => fd
  | S n => match m !! fd with
           | None => fd
           | Some _ => first_free m (fd + 1) n
           end
  end.

Definition lowest_free (m : gmap Z file) : Z := first_free m 0 (size m).

Definition file_of_path (path : string) : file :=
  if decide (path = "/dev/null")%string then DevNull else OtherFile path.

Definition write_end_open (m : gmap Z file) : bool :=
  bool_decide (map_Exists (fun _ f => f = PipeWrite) m).

Section Daemon.

Variable env : Env.

(** ** libc, as far as the file uses it *)

Definition fail_with (e : Z) : M Z :=
  do _ <- modify (set_errno e);
  ret (-1).

(** [daemon(nochdir, noclose)].  On success the process that returns is the
    detached child; the parent has left through [_exit(0)] inside the call.
    A failing call is taken to fail at its first step: an implementation can
    also return -1 later, in the child and after [setsid]; what a failed
    [daemon] leaves of the session is not represented, and no property
    below speaks of it. *)
Definition daemon_ (nochdir noclose : bool) : M Z :=
  do _ <- log (EvDaemon nochdir noclose);
  match os_daemon env with
  | Some e => fail_with e
  | None =>
      do _ <- modify (set_session_leader true);
      do _ <- (if nochdir then ret tt else modify (set_cwd "/"));
      do _ <- (if noclose then ret tt
               else modify (fun w => set_fds (<[STDIN_FILENO:=DevNull]>
                                     (<[STDOUT_FILENO:=DevNull]>
                                     (<[STDERR_FILENO:=DevNull]> (fds w)))) w));
      ret 0
  end.

Definition fork_ : M Z :=
  do _ <- log EvFork;
  match os_fork env with
  | ForkFails e => fail_with e
  | ForkChild => ret 0
  | ForkParent pid => ret (Z.pos pid)
  end.

(** On success [setsid] returns the new session's id; the code only
    compares the result with -1, the model returns 0. *)
Definition setsid_ : M Z :=
  do _ <- log EvSetsid;
  match os_setsid env with
  | Some e => fail_with e
  | None => do _ <- modify (set_session_leader true); ret 0
  end.

Definition open_ (path : string) : M Z :=
  do _ <- log (EvOpen path);
  match os_open env with
  | Some e => fail_with e
  | None =>
      do m <- get fds;
      let fd := lowest_free m in
      do _ <- modify (set_fds (<[fd:=file_of_path path]> m));
      ret fd
  end.

Definition dup2_ (oldfd newfd : Z) : M Z :=
  do _ <- log (EvDup2 oldfd newfd);
  do m <- get fds;
  match m !! oldfd with
  | None => fail_with EBADF
  | Some f => do _ <- modify (set_fds (<[newfd:=f]> m)); ret newfd
  end.

Definition close_ (fd : Z) : M Z :=
  do _ <- log (EvClose fd);
  do m <- get fds;
  match m !! fd with
  | None => fail_with EBADF
  | Some _ => do _ <- modify (set_fds (delete fd m)); ret 0
  end.

(** [pipe(fildes)]: [store] writes the two descriptors into [fildes].  The
    world holds the content of one channel; a new pipe starts empty. *)
Definition pipe_ (store : Z * Z -> World -> World) : M Z :=
  do _ <- log EvPipe;
  match os_pipe env with
  | Some e => fail_with e
  | None =>
      do m <- get fds;
      let r := lowest_free m in
      let m1 := <[r:=PipeRead]> m in
      let wr := lowest_free m1 in
      do _ <- modify (set_fds (<[wr:=PipeWrite]> m1));
      do _ <- modify (set_pipe_buf []);
      do _ <- modify (store (r, wr));
      ret 0
  end.

(** [write(fd, &value, sizeof(int))]. *)
Definition write_ (fd : Z) (value : Z) : M Z :=
  do _ <- log (EvWrite fd value);
  do m <- get fds;
  match m !! fd with
  | None => fail_with EBADF
  | Some f =>
      do n <- get nwrites;
      do _ <- modify (set_nwrites (S n));
      match os_write env n with
      | WriteFails e => fail_with e
      | WriteOk e =>
          do _ <- modify (set_errno e);
          do _ <- (if decide (f = PipeWrite)
                   then modify (fun w => set_pipe_buf (pipe_buf w ++ [value]) w)
                   else ret tt);
          ret sizeof_int
      end
  end.

(** [read(fd, &sig, sizeof(int))]: the return value and, when that is
    [sizeof(int)], the integer read.  An empty pipe blocks the reader while a
    write end is open and reports end of file (0) once none is. *)
Definition read_ (fd : Z) : M (Z * Z) :=
  do m <- get fds;
  match m !! fd with
  | Some PipeRead =>
      do buf <- get pipe_buf;
      match buf with
      | v :: rest => do _ <- modify (set_pipe_buf rest); ret (sizeof_int, v)
      | [] => if write_end_open m then halt_with Blocked else ret (0, 0)
      end
  | _ => do r <- fail_with EBADF; ret (r, 0)
  end.

Definition signal_ (sig : Z) (h : sighandler) : M sigret :=
  do _ <- log (EvSignal sig);
  match os_signal env sig with
  | Some e => do _ <- modify (set_errno e); ret SIG_ERR
  | None =>
      do hs <- get handlers;
      do _ <- modify (set_handlers (<[sig:=h]> hs));
      ret (SigPrevious (hs !! sig))
  end.

Definition pthread_create_ (start_routine : M unit) : M (Z * pthread_t) :=
  do _ <- log EvPthreadCreate;
  if os_pthread_create env =? 0
  then do _ <- modify (set_thread Running); ret (0, start_routine)
  else ret (os_pthread_create env, ret tt).

(** Joining waits for the thread to finish: whatever the thread still has to
    do is done here.  The thread's own calls go to [dispatched]; how they
    interleave with the caller's is not represented. *)
Definition pthread_join_ (t : pthread_t) : M Z :=
  do _ <- log EvPthreadJoin;
  do st <- get thread;
  match st with
  | Running => do _ <- t; do _ <- modify (set_thread Joined); ret 0
  | _ => ret ESRCH
  end.

(** [assert(c)] *)
Definition assert_ (c : bool) : M unit :=
  if NDEBUG env then ret tt
  else if c then ret tt else halt_with AssertFailed.

(** A string literal used as a condition: the array decays to a pointer,
    which is not null, which converts to [true]. *)
Definition literal_as_bool (s : string) : bool := true.

(** Reading a member through a pointer. *)
Definition deref {A} (p : World -> option A) : M A :=
  do o <- get p;
  match o with
  | Some a => ret a
  | None => halt_with NullDeref
  end.

(** A call through a pointer to a function that takes the context and
    returns nothing, on the dispatch thread. *)
Definition call_void (f : fnptr) (arg : ptr) : M unit :=
  modify (fun w => set_dispatched (dispatched w ++ [CallVoid f arg]) w).

(** ** daemon-posix.cc *)

(** [std::to_string(int)] *)
Definition to_string (n : Z) : string := NilZero.string_of_int (Z.to_int n).

(** Modelled from the spec: [tr_error_set] ([error.h]) is not among the
    sources; it stores the error object, OS error code and message, where
    the caller of [dtr_daemon] finds it. *)
Definition tr_error_set (c : Z) (msg : string) : M unit :=
  modify (set_error (Some {| code := c; message := msg |})).

(** [tr_strvJoin] appends its arguments in order. *)
Definition tr_strvJoin (args : list string) : string :=
  foldr String.append EmptyString args.

Definition set_system_error (c : Z) (msg : string) : M unit :=
  tr_error_set c (tr_strvJoin [msg; " ("; to_string c; "): "; tr_strerror env c]%string).

Definition handle_signal (sig : Z) : M unit :=
  if sig =? SIGHUP then
    do cb <- deref callbacks;
    do arg <- get callback_arg;
    call_void (on_reconfigure cb) arg
  else if (sig =? SIGINT) || (sig =? SIGTERM) then
    do cb <- deref callbacks;
    do arg <- get callback_arg;
    call_void (on_stop cb) arg
  else
    assert_ (literal_as_bool "Unexpected signal").

Definition send_signal_to_pipe (sig : Z) : M unit :=
  do old_errno <- get errno;
  do wfd <- get (fun w => snd (signal_pipe w));
  do r <- write_ wfd sig;
  if r =? -1 then halt_with Aborted
  else modify (set_errno old_errno).

(** The loop of [signal_handler_thread_main].  Every turn that goes on takes
    one integer out of the pipe, so one turn more than the pipe holds is
    enough ([signal_loop_fuel]). *)
Fixpoint signal_loop (fuel : nat) : M unit :=
  match fuel with
  | O => halt_with OutOfFuel
  | S k =>
      do rfd <- get (fun w => fst (signal_pipe w));
      do rs <- read_ rfd;
      let '(n, sig) := rs in
      if (n =? sizeof_int) && negb (sig =? 0)
      then do _ <- handle_signal sig; signal_loop k
      else ret tt
  end.

Definition signal_handler_thread_main : M unit :=
  do buf <- get pipe_buf;
  signal_loop (S (length buf)).

Definition create_signal_pipe : M bool :=
  do r <- pipe_ set_signal_pipe;
  if r =? -1 then
    do e <- get errno;
    do _ <- set_system_error e "pipe() failed";
    ret false
  else ret true.

Definition destroy_signal_pipe : M unit :=
  do rfd <- get (fun w => fst (signal_pipe w));
  do _ <- close_ rfd;
  do wfd <- get (fun w => snd (signal_pipe w));
  do _ <- close_ wfd;
  ret tt.

(** Returns the result and what [*thread] holds afterwards. *)
Definition create_signal_handler_thread : M (bool * pthread_t) :=
  do ok <- create_signal_pipe;
  if negb ok then ret (false, ret tt)
  else
    do rt <- pthread_create_ signal_handler_thread_main;
    do _ <- modify (set_errno (fst rt));
    do e <- get errno;
    if negb (e =? 0) then
      do _ <- set_system_error e "pthread_create() failed";
      do _ <- destroy_signal_pipe;
      ret (false, snd rt)
    else ret (true, snd rt).

Definition destroy_signal_handler_thread (thread : pthread_t) : M unit :=
  do _ <- send_signal_to_pipe 0;
  do _ <- pthread_join_ thread;
  destroy_signal_pipe.

Definition setup_signal_handler (sig : Z) : M bool :=
  do _ <- assert_ (negb (sig =? 0));
  do r <- signal_ sig Handler_send_signal_to_pipe;
  if is_SIG_ERR r then
    do e <- get errno;
    do _ <- set_system_error e "signal() failed";
    ret false
  else ret true.

(** The kernel delivering [sig] to the process: the installed handler runs;
    a signal left at its default disposition is outside this model. *)
Definition deliver (sig : Z) : M unit :=
  do h <- get (fun w => handlers w !! sig);
  match h with
  | Some Handler_send_signal_to_pipe => send_signal_to_pipe sig
  | None => ret tt
  end.

Fixpoint deliver_all (sigs : list Z) : M unit :=
  match sigs with
  | [] => ret tt
  | sig :: rest => do _ <- deliver sig; deliver_all rest
  end.

(** [cb->on_start(cb_arg, foreground)] on the calling thread: the workload
    runs, signals arrive meanwhile, and it returns its exit code.  What the
    workload does itself is not represented: it is taken to return and to
    leave the process-wide state alone (in particular it does not call
    [dtr_daemon] again). *)
Definition call_start (f : fnptr) (arg : ptr) (foreground : bool) : M Z :=
  do _ <- log (CallStart f arg foreground);
  do _ <- deliver_all (start_signals env);
  ret (start_result env).

(** [a || b] and [!a] over calls *)
Definition orelse (a b : M bool) : M bool :=
  do x <- a;
  if x then ret true else b.

Definition notM (a : M bool) : M bool :=
  do x <- a;
  ret (negb x).

(** The body of [if (!foreground)] in [dtr_daemon]: [Some b] when
    [dtr_daemon] returns [b] from inside it, [None] when control goes on to
    the statement after it. *)
Definition detach : M (option bool) :=
  if HAVE_DAEMON env then
    do r <- daemon_ true false;
    if r =? -1 then
      do e <- get errno;
      do _ <- set_system_error e "daemon() failed";
      ret (Some false)
    else ret None
  else
    do pid <- fork_;
    if pid =? -1 then
      do e <- get errno;
      do _ <- set_system_error e "fork() failed";
      ret (Some false)
    else if pid =? 0 then
      do r <- setsid_;
      if r =? -1 then
        do e <- get errno;
        do _ <- set_system_error e "setsid() failed";
        ret (Some false)
      else
        do fd <- open_ "/dev/null";
        do _ <- dup2_ fd STDIN_FILENO;
        do _ <- dup2_ fd STDOUT_FILENO;
        do _ <- dup2_ fd STDERR_FILENO;
        do _ <- close_ fd;
        ret None
    else
      do _ <- modify (set_exit_code 0);
      ret (Some true).

(** The statements of [dtr_daemon] after the [if (!foreground)] block. *)
Definition serve (cb : dtr_callbacks) (cb_arg : ptr) (foreground : bool) : M bool :=
  do ct <- create_signal_handler_thread;
  let signal_thread := snd ct in
  if negb (fst ct) then ret false
  else
    do failed <- orelse (notM (setup_signal_handler SIGINT))
                (orelse (notM (setup_signal_handler SIGTERM))
                        (notM (setup_signal_handler SIGHUP)));
    if failed then
      do _ <- destroy_signal_handler_thread signal_thread;
      ret false
    else
      do c <- call_start (on_start cb) cb_arg foreground;
      do _ <- modify (set_exit_code c);
      do _ <- destroy_signal_handler_thread signal_thread;
      ret true.

Definition dtr_daemon (cb : dtr_callbacks) (cb_arg : ptr) (foreground : bool) : M bool :=
  do _ <- modify (set_callbacks (Some cb));
  do _ <- modify (set_callback_arg cb_arg);
  do _ <- modify (set_exit_code 1);
  do early <- (if negb foreground then detach else ret None);
  match early with
  | Some b => ret b
  | None => serve cb cb_arg foreground
  end.

End Daemon.

(** ** Sample worlds and environments *)

(** A process started from a shell: the three standard descriptors on the
    terminal, nothing else. *)
Definition w0 : World :=
  {| callbacks := None; callback_arg := 0; signal_pipe := (0, 0);
     errno := 0; fds := <[0:=Tty]> (<[1:=Tty]> (<[2:=Tty]> ∅)); pipe_buf := [];
     handlers := ∅; session_leader := false; cwd := "/home/user"; thread := NoThread;
     nwrites := 0; exit_code := 0; error := None; trace := []; dispatched := [] |}.

(** An environment where every call succeeds. *)
Definition env_ok : Env :=
  {| HAVE_DAEMON := false; NDEBUG := false; tr_strerror := fun _ => "error"%string;
     os_daemon := None; os_fork := ForkChild; os_setsid := None; os_open := None;
     os_pipe := None; os_pthread_create := 0; os_signal := fun _ => None;
     os_write := fun _ => WriteOk 0; start_signals := [SIGHUP; SIGTERM]; start_result := 7 |}.

Definition cb0 : dtr_callbacks :=
  {| on_start := 100; on_stop := 200; on_reconfigure := 300 |}.

(** The dispatch thread of a running daemon: the channel is on descriptors
    3 and 4 and holds [buf], the callbacks are [cb0] with context 55. *)
Definition w_thread (buf : list Z) : World :=
  {| callbacks := Some cb0; callback_arg := 55; signal_pipe := (3, 4);
     errno := 0;
     fds := <[0:=Tty]> (<[1:=Tty]> (<[2:=Tty]> (<[3:=PipeRead]> (<[4:=PipeWrite]> ∅))));
     pipe_buf := buf;
     handlers := <[SIGINT:=Handler_send_signal_to_pipe]>
                 (<[SIGTERM:=Handler_send_signal_to_pipe]>
                 (<[SIGHUP:=Handler_send_signal_to_pipe]> ∅));
     session_leader := false; cwd := "/home/user"; thread := Running;
     nwrites := 0; exit_code := 1; error := None;
     trace := [EvPipe; EvPthreadCreate; EvSignal SIGINT; EvSignal SIGTERM; EvSignal SIGHUP;
               CallStart 100 55 true];
     dispatched := [] |}.

(** An environment in which every write fails with EAGAIN, and one in which
    a write succeeds and leaves EINTR's number in [errno]. *)
Definition env_write_fails : Env :=
  {| HAVE_DAEMON := false; NDEBUG := false; tr_strerror := fun _ => "error"%string;
     os_daemon := None; os_fork := ForkChild; os_setsid := None; os_open := None;
     os_pipe := None; os_pthread_create := 0; os_signal := fun _ => None;
     os_write := fun _ => WriteFails 11; start_signals := []; start_result := 0 |}.

Definition env_write_clobbers : Env :=
  {| HAVE_DAEMON := false; NDEBUG := false; tr_strerror := fun _ => "error"%string;
     os_daemon := None; os_fork := ForkChild; os_setsid := None; os_open := None;
     os_pipe := None; os_pthread_create := 0; os_signal := fun _ => None;
     os_write := fun _ => WriteOk 4; start_signals := []; start_result := 0 |}.

(** The parent's side of [fork]. *)
Definition env_parent : Env :=
  {| HAVE_DAEMON := false; NDEBUG := false; tr_strerror := fun _ => "error"%string;
     os_daemon := None; os_fork := ForkParent 4242; os_setsid := None; os_open := None;
     os_pipe := None; os_pthread_create := 0; os_signal := fun _ => None;
     os_write := fun _ => WriteOk 0; start_signals := []; start_result := 7 |}.

(** The world [dtr_daemon] continues in after its first three assignments. *)
Definition enter (cb : dtr_callbacks) (cb_arg : ptr) (w : World) : World :=
  set_exit_code 1 (set_callback_arg cb_arg (set_callbacks (Some cb) w)).

(** One of the set-up steps fails: the pipe, the thread, or the
    registration of one of the three handlers. *)
Definition setup_fails (env : Env) : Prop :=
  is_Some (os_pipe env) \/ os_pthread_create env <> 0 \/
  is_Some (os_signal env SIGINT) \/ is_Some (os_signal env SIGTERM) \/
  is_Some (os_signal env SIGHUP).

(** [signal(SIGTERM, ...)] fails with EINVAL; everything else succeeds. *)
Definition env_sigterm_fails : Env :=
  {| HAVE_DAEMON := false; NDEBUG := false; tr_strerror := fun _ => "Invalid argument"%string;
     os_daemon := None; os_fork := ForkChild; os_setsid := None; os_open := None;
     os_pipe := None; os_pthread_create := 0;
     os_signal := fun sig => if sig =? SIGTERM then Some 22 else None;
     os_write := fun _ => WriteOk 0; start_signals := []; start_result := 0 |}.

(** The same, and the write of the sentinel fails with EAGAIN. *)
Definition env_sigterm_and_write_fail : Env :=
  {| HAVE_DAEMON := false; NDEBUG := false; tr_strerror := fun _ => "Invalid argument"%string;
     os_daemon := None; os_fork := ForkChild; os_setsid := None; os_open := None;
     os_pipe := None; os_pthread_create := 0;
     os_signal := fun sig => if sig =? SIGTERM then Some 22 else None;
     os_write := fun _ => WriteFails 11; start_signals := []; start_result := 0 |}.

(** [/dev/null] cannot be opened (ENOENT); everything else succeeds. *)
Definition env_no_dev_null : Env :=
  {| HAVE_DAEMON := false; NDEBUG := false;
     tr_strerror := fun _ => "No such file or directory"%string;
     os_daemon := None; os_fork := ForkChild; os_setsid := None; os_open := Some 2;
     os_pipe := None; os_pthread_create := 0; os_signal := fun _ => None;
     os_write := fun _ => WriteOk 0; start_signals := []; start_result := 0 |}.

(** A process started with its standard input closed. *)
Definition w_no_stdin : World :=
  {| callbacks := None; callback_arg := 0; signal_pipe := (0, 0);
     errno := 0; fds := <[1:=Tty]> (<[2:=Tty]> ∅); pipe_buf := [];
     handlers := ∅; session_leader := false; cwd := "/home/user"; thread := NoThread;
     nwrites := 0; exit_code := 0; error := None; trace := []; dispatched := [] |}.

(** The descriptor the child's [open] returns: -1 when it fails. *)
Definition dev_null_fd (env : Env) (w : World) : Z :=
  match os_open env with
  | Some _ => -1
  | None => lowest_free (fds w)
  end.


(** What [handle_signal] leaves behind when it calls [f]. *)
Definition dispatch (f : fnptr) (w : World) : World :=
  set_dispatched (dispatched w ++ [CallVoid f (callback_arg w)]) w.

(** ** What a step keeps *)

Definition not_start (e : event) : bool :=
  match e with
  | CallStart _ _ _ => false
  | _ => true
  end.

(** [keeps strict w w']: from [w] to [w'] the recorded callbacks, their
    context and the working directory are the same; when [strict], so is the
    caller's exit code, and the log grew without a call of [on_start]. *)
Record keeps (strict : bool) (w w' : World) : Prop := Keeps {
  k_callbacks : callbacks w' = callbacks w;
  k_callback_arg : callback_arg w' = callback_arg w;
  k_cwd : cwd w' = cwd w;
  k_exit_code : strict = true -> exit_code w' = exit_code w;
  k_trace : strict = true ->
            exists evs, trace w' = trace w ++ evs /\ forallb not_start evs = true
}.

Definition kept {A} (strict : bool) (m : M A) : Prop :=
  forall w, keeps strict w (world_of (m w)).

(** [same_channel w w']: the channel, its descriptors and the dispatch
    thread are in [w'] as they were in [w]. *)
Record same_channel (w w' : World) : Prop := SameChannel {
  sc_fds : fds w' = fds w;
  sc_signal_pipe : signal_pipe w' = signal_pipe w;
  sc_pipe_buf : pipe_buf w' = pipe_buf w;
  sc_thread : thread w' = thread w;
  sc_nwrites : nwrites w' = nwrites w
}.

(** The descriptor table once a pipe has been made in [m]. *)
Definition pipe_read_fd (m : gmap Z file) : Z := lowest_free m.
Definition pipe_write_fd (m : gmap Z file) : Z := lowest_free (<[pipe_read_fd m:=PipeRead]> m).
Definition with_pipe (m : gmap Z file) : gmap Z file :=
  <[pipe_write_fd m:=PipeWrite]> (<[pipe_read_fd m:=PipeRead]> m).

(** [channel_up m w]: in [w] the channel made in table [m] is open and
    empty, and the dispatch thread runs. *)
Record channel_up (m : gmap Z file) (w : World) : Prop := ChannelUp {
  cu_fds : fds w = with_pipe m;
  cu_signal_pipe : signal_pipe w = (pipe_read_fd m, pipe_write_fd m);
  cu_pipe_buf : pipe_buf w = [];
  cu_thread : thread w = Running
}.

(** ** Worlds and relations of the further properties *)

(** The callback [handle_signal] calls for an identifier, if any. *)
Definition callback_for (cb : dtr_callbacks) (sig : Z) : option fnptr :=
  if sig =? SIGHUP then Some (on_reconfigure cb)
  else if (sig =? SIGINT) || (sig =? SIGTERM) then Some (on_stop cb)
  else None.

(** The calls the dispatch thread makes for a sequence of identifiers. *)
Fixpoint calls_for (cb : dtr_callbacks) (arg : ptr) (sigs : list Z) : list event :=
  match sigs with
  | [] => []
  | sig :: rest =>
      match callback_for cb sig with
      | Some f => CallVoid f arg :: calls_for cb arg rest
      | None => calls_for cb arg rest
      end
  end.

(** The world after one successful write of [sig] by the handler. *)
Definition relayed (sig : Z) (w : World) : World :=
  set_pipe_buf (pipe_buf w ++ [sig])
    (set_nwrites (S (nwrites w))
      (set_trace (trace w ++ [EvWrite (snd (signal_pipe w)) sig]) w)).

(** [logged evs w]: [w] after the events [evs] were logged one by one. *)
Definition logged (evs : list event) (w : World) : World :=
  set_trace (fold_left (fun t e => t ++ [e]) evs (trace w)) w.

(** The world after [create_signal_handler_thread] succeeded in [w]. *)
Definition created (w : World) : World :=
  set_errno 0
    (set_thread Running
      (set_signal_pipe (pipe_read_fd (fds w), pipe_write_fd (fds w))
        (set_pipe_buf []
          (set_fds (with_pipe (fds w))
            (logged [EvPipe; EvPthreadCreate] w))))).

Definition three_handlers (hs : gmap Z sighandler) : gmap Z sighandler :=
  <[SIGHUP:=Handler_send_signal_to_pipe]>
    (<[SIGTERM:=Handler_send_signal_to_pipe]>
      (<[SIGINT:=Handler_send_signal_to_pipe]> hs)).

(** The world after the three registrations succeeded in [w]. *)
Definition registered (w : World) : World :=
  set_handlers (three_handlers (handlers w))
    (logged [EvSignal SIGINT; EvSignal SIGTERM; EvSignal SIGHUP] w).

(** The world after the handler relayed each of [sigs] in turn. *)
Definition relayed_all (sigs : list Z) (w : World) : World :=
  fold_left (fun w' sig => relayed sig w') sigs w.

(** The world after [destroy_signal_handler_thread] ran in [w], where the
    channel made in table [m] is up and holds [sigs], none of them 0. *)
Definition torn_down (cb : dtr_callbacks) (m : gmap Z file) (sigs : list Z) (w : World) : World :=
  set_fds m
    (set_thread Joined
      (set_dispatched (dispatched w ++ calls_for cb (callback_arg w) sigs)
        (set_pipe_buf []
          (set_nwrites (S (nwrites w))
            (logged [EvWrite (pipe_write_fd m) 0; EvPthreadJoin;
                     EvClose (pipe_read_fd m); EvClose (pipe_write_fd m)] w))))).

Definition one_of_three (sig : Z) : Prop :=
  sig = SIGHUP \/ sig = SIGINT \/ sig = SIGTERM.

(** Every write the process makes succeeds. *)
Definition writes_succeed (env : Env) : Prop :=
  forall n, exists e, os_write env n = WriteOk e.

(** None of the calls of the set-up fails, and no write does. *)
Definition nothing_fails (env : Env) : Prop :=
  os_pipe env = None /\ os_pthread_create env = 0 /\
  os_signal env SIGINT = None /\ os_signal env SIGTERM = None /\
  os_signal env SIGHUP = None /\ writes_succeed env.

(** The error object [set_system_error] makes of an OS error. *)
Definition system_error (env : Env) (c : Z) (msg : string) : tr_error :=
  {| code := c;
     message := tr_strvJoin [msg; " ("; to_string c; "): "; tr_strerror env c]%string |}.

(** How the detachment by [fork] and [setsid] fails, if it does: the error
    number, the primitive named in the message and the calls made until
    then. *)
Definition detach_failure (env : Env) : option (Z * string * list event) :=
  match os_fork env with
  | ForkFails e => Some (e, "fork() failed"%string, [EvFork])
  | ForkChild =>
      match os_setsid env with
      | Some e => Some (e, "setsid() failed"%string, [EvFork; EvSetsid])
      | None => None
      end
  | ForkParent _ => None
  end.

(** [fork] fails with EAGAIN. *)
Definition env_fork_fails : Env :=
  {| HAVE_DAEMON := false; NDEBUG := false;
     tr_strerror := fun _ => "Resource temporarily unavailable"%string;
     os_daemon := None; os_fork := ForkFails 11; os_setsid := None; os_open := None;
     os_pipe := None; os_pthread_create := 0; os_signal := fun _ => None;
     os_write := fun _ => WriteOk 0; start_signals := []; start_result := 0 |}.

(** [serve] after its first call, given what that call returned. *)
Definition serve_from (env : Env) (cb : dtr_callbacks) (cb_arg : ptr) (fg : bool)
    (ct : bool * pthread_t) : M bool :=
  if negb (fst ct) then ret false
  else
    bind (orelse (notM (setup_signal_handler env SIGINT))
         (orelse (notM (setup_signal_handler env SIGTERM))
                 (notM (setup_signal_handler env SIGHUP))))
      (fun failed =>
         if failed then
           bind (destroy_signal_handler_thread env (snd ct)) (fun _ => ret false)
         else
           bind (call_start env (on_start cb) cb_arg fg) (fun c =>
           bind (modify (set_exit_code c)) (fun _ =>
           bind (destroy_signal_handler_thread env (snd ct)) (fun _ => ret true)))).

(** [steps R m]: whatever [m] does and however it ends, the world it ends
    in is related by [R] to the one it started in. *)
Definition steps {A} (R : World -> World -> Prop) (m : M A) : Prop :=
  forall w, R w (world_of (m w)).

(** The log grew by events that all satisfy [P]. *)
Definition logged_only (P : event -> bool) (w w' : World) : Prop :=
  exists evs, trace w' = trace w ++ evs /\ forallb P evs = true.

(** The calls that detach a process from its terminal. *)
Definition is_detach_call (e : event) : bool :=
  match e with
  | EvDaemon _ _ | EvFork | EvSetsid | EvOpen _ | EvDup2 _ _ => true
  | _ => false
  end.

(** [attached w w']: no such call was made and the session is the same. *)
Definition attached (w w' : World) : Prop :=
  session_leader w' = session_leader w /\
  logged_only (fun e => negb (is_detach_call e)) w w'.

Definition is_one_of_three (sig : Z) : bool :=
  (sig =? SIGHUP) || (sig =? SIGINT) || (sig =? SIGTERM).

(** [signal] was called for [sig] among the calls [evs]. *)
Definition signalled (sig : Z) (evs : list event) : bool :=
  existsb (fun e => match e with
                    | EvSignal s => s =? sig
                    | _ => false
                    end) evs.

(** [signal(sig, ...)] succeeds. *)
Definition signal_succeeds (env : Env) (sig : Z) : bool :=
  match os_signal env sig with
  | None => true
  | Some _ => false
  end.

(** [dispositions env w w']: between [w] and [w'] the process called
    [signal] for no signal but SIGHUP, SIGINT and SIGTERM, and in [w'] a
    signal is handled by [send_signal_to_pipe] if [signal] was called for
    it and succeeded, and has the disposition it had in [w] otherwise. *)
Definition dispositions (env : Env) (w w' : World) : Prop :=
  exists evs, trace w' = trace w ++ evs /\
    forall sig,
      (signalled sig evs = true -> is_one_of_three sig = true) /\
      handlers w' !! sig =
        if signalled sig evs && signal_succeeds env sig
        then Some Handler_send_signal_to_pipe
        else handlers w !! sig.

(** [started_once c w w']: the log grew, and the only call of a start
    function it gained, if any, is the one call [c]. *)
Definition started_once (c : event) (w w' : World) : Prop :=
  logged_only not_start w w' \/
  exists pre post, trace w' = trace w ++ pre ++ c :: post /\
                   forallb not_start pre = true /\ forallb not_start post = true.

(** [own_calls cb arg w w']: with [cb] and [arg] in the two statics, they
    are still there and the dispatch thread called only [cb]'s [on_stop]
    and [on_reconfigure], each with [arg]. *)
Definition own_calls (cb : dtr_callbacks) (arg : ptr) (w w' : World) : Prop :=
  callbacks w = Some cb -> callback_arg w = arg ->
  callbacks w' = Some cb /\ callback_arg w' = arg /\
  exists calls, dispatched w' = dispatched w ++ calls /\
                Forall (fun e => e = CallVoid (on_stop cb) arg \/
                                 e = CallVoid (on_reconfigure cb) arg) calls.

(** The world [serve] returns in when nothing fails. *)
Definition served (env : Env) (cb cb' : dtr_callbacks) (cb_arg : ptr) (fg : bool) (w : World)
  : World :=
  torn_down cb' (fds w) (start_signals env)
    (set_exit_code (start_result env)
      (relayed_all (start_signals env)
        (logged [CallStart (on_start cb) cb_arg fg] (registered (created w))))).

(** * utils.h *)

(** ** [std::string_view] and [std::string]

    A view or a string is its sequence of characters; a position or a
    count is a [nat], and [None] stands for [npos]. *)

(** [sv.find(ch)]: the position of the first [ch]. *)
Fixpoint sv_find (ch : Ascii.ascii) (sv : string) : option nat :=
  match sv with
  | EmptyString => None
  | String c rest =>
      if Ascii.eqb c ch then Some 0%nat
      else match sv_find ch rest with
           | Some p => Some (S p)
           | None => None
           end
  end.

(** [sv.remove_prefix(n)], for [n <= size]; every call below is in range. *)
Fixpoint sv_remove_prefix (n : nat) (sv : string) : string :=
  match n, sv with
  | O, _ => sv
  | S k, String _ rest => sv_remove_prefix k rest
  | S _, EmptyString => EmptyString
  end.

(** [sv.substr(pos, count)], for [pos <= size]; every call below is in
    range.  The count is cut down to what is left of the view. *)
Definition sv_substr (sv : string) (pos : nat) (count : option nat) : string :=
  let tail := sv_remove_prefix pos sv in
  match count with
  | Some n => String.substring 0 n tail
  | None => tail
  end.

(** [std::empty(sv)] *)
Definition sv_empty (sv : string) : bool :=
  match sv with
  | EmptyString => true
  | String _ _ => false
  end.

(** [setme.resize(n)] for [n <= size] *)
Definition string_resize (setme : string) (n : nat) : string := String.substring 0 n setme.




Section Utils.

(** [TR_PATH_DELIMITER] comes from [tr-macros.h]; the width of [size_t]
    from the platform; [tr_speed_K] and [tr_mem_K] are the two [size_t]
    statics that [tr_formatter_speed_init] and [tr_formatter_mem_init]
    set. *)
Variable TR_PATH_DELIMITER : Ascii.ascii.
Variable size_t_bits : Z.
Variable tr_speed_K : Z.
Variable tr_mem_K : Z.


(** [tr_strvPath(arg, args...)]: the fold over [+] that computes [n] has no
    value for an empty pack, so there is at least one argument. *)
Definition tr_strvPath (arg : string) (args : list string) : string :=
  let foo (setme a : string) := (setme +:+ a) +:+ String TR_PATH_DELIMITER EmptyString in
  let setme := fold_left foo (arg :: args) EmptyString in
  string_resize setme (String.length setme - 1).

(** [tr_strvStartsWith(sv, char)] *)
Definition tr_strvStartsWith_char (sv : string) (key : Ascii.ascii) : bool :=
  negb (sv_empty sv) &&
  match String.get 0 sv with
  | Some front => Ascii.eqb front key
  | None => false
  end.

(** [tr_strvStartsWith(sv, std::string_view)] *)
Definition tr_strvStartsWith (sv key : string) : bool :=
  (String.length key <=? String.length sv)%nat &&
  String.eqb (sv_substr sv 0 (Some (String.length key))) key.

(** [tr_strvEndsWith(sv, std::string_view)] *)
Definition tr_strvEndsWith (sv key : string) : bool :=
  (String.length key <=? String.length sv)%nat &&
  String.eqb (sv_substr sv (String.length sv - String.length key) None) key.

(** [tr_strvEndsWith(sv, char)] *)
Definition tr_strvEndsWith_char (sv : string) (key : Ascii.ascii) : bool :=
  negb (sv_empty sv) &&
  match String.get (String.length sv - 1) sv with
  | Some back => Ascii.eqb back key
  | None => false
  end.

(** [tr_strvSep(sv, delim)]: the view returned and what [*sv] holds
    afterwards. *)
Definition tr_strvSep (sv : string) (delim : Ascii.ascii) : string * string :=
  let pos := sv_find delim sv in
  let ret := sv_substr sv 0 pos in
  let sv' := sv_remove_prefix (match pos with
                               | Some p => p + 1
                               | None => String.length sv
                               end) sv in
  (ret, sv').


(** ** Units

    [unsigned int] and [int] have 32 bits, [uint64_t] has 64. *)

Definition to_unsigned (bits : Z) (x : Z) : Z := x mod 2 ^ bits.

(** Conversion to [int]: the value modulo [2^32] in the signed range. *)
Definition to_int (x : Z) : Z :=
  let r := x mod 2 ^ 32 in
  if r <? 2 ^ 31 then r else r - 2 ^ 32.

(** The width of the type [unsigned int * size_t] is computed in. *)
Definition common_bits : Z := Z.max 32 size_t_bits.

(** [tr_toSpeedBytes(KBps)] *)
Definition tr_toSpeedBytes (KBps : Z) : Z :=
  to_unsigned 32 (to_unsigned common_bits (KBps * tr_speed_K)).

(** [tr_toMemBytes(MB)] *)
Definition tr_toMemBytes (MB : Z) : Z :=
  let B := to_unsigned 64 (tr_mem_K * tr_mem_K) in
  let B := to_unsigned 64 (B * MB) in
  B.

(** [tr_toMemMB(B)]: the divisor is computed in [size_t]; dividing by zero
    has no defined result. *)
Definition tr_toMemMB (B : Z) : option Z :=
  let d := to_unsigned size_t_bits (tr_mem_K * tr_mem_K) in
  if d =? 0 then None
  else Some (to_int (B / d)).

End Utils.

(** Two characters for the examples. *)
Section Characters.
Import Stdlib.Strings.Ascii.

Definition slash : ascii := "/"%char.
Definition dot : ascii := "."%char.

End Characters.

(** * Properties *)

(** Running the monad's plumbing, and reading a field of an updated world. *)
Ltac proj :=
  cbn [callbacks callback_arg signal_pipe errno fds pipe_buf handlers session_leader
       cwd thread nwrites exit_code error trace dispatched
       set_callbacks set_callback_arg set_signal_pipe set_errno set_fds set_pipe_buf
       set_handlers set_session_leader set_cwd set_thread set_nwrites set_exit_code
       set_error set_trace set_dispatched world_of fst snd orb andb negb].

Ltac exec :=
  cbv beta iota delta [bind ret get modify log halt_with deref call_void fail_with];
  proj.

(** ** Two runs *)

(** In the foreground, SIGHUP then SIGTERM arriving while [on_start] runs:
    the calls of the calling thread and of the dispatch thread, in order. *)
Example foreground_run :
  exists w', dtr_daemon env_ok cb0 55 true w0 = Ret true w' /\
    exit_code w' = 7 /\ thread w' = Joined /\ fds w' = fds w0 /\
    trace w' = [EvPipe; EvPthreadCreate; EvSignal SIGINT; EvSignal SIGTERM; EvSignal SIGHUP;
                CallStart 100 55 true; EvWrite 4 SIGHUP; EvWrite 4 SIGTERM; EvWrite 4 0;
                EvPthreadJoin; EvClose 3; EvClose 4] /\
    dispatched w' = [CallVoid 300 55; CallVoid 200 55].
Proof.
  eexists. split; [vm_compute; reflexivity |]. repeat split.
Qed.

(** The same in the child of the manual fork. *)
Example daemonized_run :
  exists w', dtr_daemon env_ok cb0 55 false w0 = Ret true w' /\
    exit_code w' = 7 /\ session_leader w' = true /\ cwd w' = cwd w0 /\
    fds w' !! STDIN_FILENO = Some DevNull /\
    fds w' !! STDOUT_FILENO = Some DevNull /\
    fds w' !! STDERR_FILENO = Some DevNull /\
    trace w' = [EvFork; EvSetsid; EvOpen "/dev/null"; EvDup2 3 0; EvDup2 3 1; EvDup2 3 2;
                EvClose 3; EvPipe; EvPthreadCreate;
                EvSignal SIGINT; EvSignal SIGTERM; EvSignal SIGHUP;
                CallStart 100 55 false; EvWrite 4 SIGHUP; EvWrite 4 SIGTERM; EvWrite 4 0;
                EvPthreadJoin; EvClose 3; EvClose 4] /\
    dispatched w' = [CallVoid 300 55; CallVoid 200 55].
Proof.
  eexists. split; [vm_compute; reflexivity |]. repeat split.
Qed.

(** ** The dispatch thread *)



(** One turn of the loop on a pipe that holds [sig :: rest]. *)
Lemma signal_loop_step env k w sig rest :
  fds w !! fst (signal_pipe w) = Some PipeRead ->
  pipe_buf w = sig :: rest ->
  signal_loop env (S k) w =
    if sig =? 0 then Ret tt (set_pipe_buf rest w)
    else bind (handle_signal env sig) (fun _ => signal_loop env k) (set_pipe_buf rest w).
Proof.
  intros Hfd Hbuf. cbn [signal_loop]. unfold read_. exec.
  rewrite Hfd. exec. rewrite Hbuf. exec.
  change (sizeof_int =? sizeof_int) with true. proj.
  destruct (sig =? 0); reflexivity.
Qed.

Lemma thread_main_step env w sig rest :
  fds w !! fst (signal_pipe w) = Some PipeRead ->
  pipe_buf w = sig :: rest ->
  signal_handler_thread_main env w =
    if sig =? 0 then Ret tt (set_pipe_buf rest w)
    else bind (handle_signal env sig) (fun _ => signal_loop env (S (length rest)))
              (set_pipe_buf rest w).
Proof.
  intros Hfd Hbuf. unfold signal_handler_thread_main. unfold bind at 1. unfold get at 1.
  rewrite Hbuf. cbn [length]. apply signal_loop_step; assumption.
Qed.



(** C4. When the dispatch thread reads the sentinel 0 its routine returns at
    once: nothing is dispatched, and the world is the one it read in, less
    the sentinel. *)
Theorem sentinel_ends_thread env w rest :
  fds w !! fst (signal_pipe w) = Some PipeRead ->
  pipe_buf w = 0 :: rest ->
  signal_handler_thread_main env w = Ret tt (set_pipe_buf rest w) /\
  dispatched (world_of (signal_handler_thread_main env w)) = dispatched w.
Proof.
  intros Hfd Hbuf.
  rewrite (thread_main_step env w 0 rest Hfd Hbuf).
  change (0 =? 0) with true. cbv iota. split; reflexivity.
Qed.

Lemma sentinel_ends_thread_witness :
  signal_handler_thread_main env_ok (w_thread [0; SIGHUP])
    = Ret tt (set_pipe_buf [SIGHUP] (w_thread [0; SIGHUP])) /\
  dispatched (world_of (signal_handler_thread_main env_ok (w_thread [0; SIGHUP]))) = [].
Proof.
  apply (sentinel_ends_thread env_ok (w_thread [0; SIGHUP]) [SIGHUP]); reflexivity.
Defined.

(** C1. An identifier that is none of SIGHUP, SIGINT and SIGTERM makes
    [handle_signal] return normally with the world untouched: its
    [assert("Unexpected signal")] tests a string literal, which is true, so
    no assertion fails and no callback runs. *)
Theorem handle_signal_unexpected env sig w :
  sig <> SIGHUP -> sig <> SIGINT -> sig <> SIGTERM ->
  handle_signal env sig w = Ret tt w.
Proof.
  intros H1 H2 H3. unfold handle_signal.
  apply Z.eqb_neq in H1, H2, H3. rewrite H1, H2, H3. cbn [orb].
  unfold assert_, literal_as_bool. destruct (NDEBUG env); reflexivity.
Qed.

Lemma handle_signal_unexpected_witness :
  handle_signal env_ok 10 (w_thread [0]) = Ret tt (w_thread [0]).
Proof.
  apply (handle_signal_unexpected env_ok 10 (w_thread [0])); discriminate.
Defined.

(** ** The signal handler *)

(** C7. If the handler's write into the write end of the channel fails
    (returns -1), the handler does not return: the process is aborted, in the
    world the failed write left. *)
Theorem send_signal_write_failure_aborts env sig w w1 :
  write_ env (snd (signal_pipe w)) sig w = Ret (-1) w1 ->
  send_signal_to_pipe env sig w = Halt Aborted w1 /\
  (forall w', send_signal_to_pipe env sig w <> Ret tt w').
Proof.
  intros Hw.
  assert (send_signal_to_pipe env sig w = Halt Aborted w1) as E.
  { unfold send_signal_to_pipe. unfold bind at 1 2 3. unfold get at 1 2.
    rewrite Hw. reflexivity. }
  split; [exact E |]. intros w' H. rewrite E in H. discriminate H.
Qed.

Lemma send_signal_write_failure_aborts_witness :
  exists w1,
    write_ env_write_fails 4 SIGTERM (w_thread []) = Ret (-1) w1 /\
    send_signal_to_pipe env_write_fails SIGTERM (w_thread []) = Halt Aborted w1 /\
    (forall w', send_signal_to_pipe env_write_fails SIGTERM (w_thread []) <> Ret tt w').
Proof.
  eexists. split; [reflexivity |].
  apply (send_signal_write_failure_aborts env_write_fails SIGTERM (w_thread [])).
  reflexivity.
Defined.

(** C8. Whenever the handler returns, [errno] holds what it held when the
    handler was entered, whatever the write made of it in between. *)
Theorem send_signal_restores_errno env sig w w' :
  send_signal_to_pipe env sig w = Ret tt w' ->
  errno w' = errno w.
Proof.
  unfold send_signal_to_pipe. unfold bind at 1 2 3. unfold get at 1 2.
  destruct (write_ env (snd (signal_pipe w)) sig w) as [r w1 | why w1]; [| discriminate].
  destruct (r =? -1).
  - unfold halt_with. discriminate.
  - unfold modify. intros H. injection H as <-. reflexivity.
Qed.

Lemma send_signal_restores_errno_witness :
  errno (world_of (write_ env_write_clobbers 4 SIGHUP (w_thread []))) = 4 /\
  exists w',
    send_signal_to_pipe env_write_clobbers SIGHUP (w_thread []) = Ret tt w' /\
    errno w' = 0.
Proof.
  split; [reflexivity |].
  eexists. split; [reflexivity |].
  apply (send_signal_restores_errno env_write_clobbers SIGHUP (w_thread [])).
  reflexivity.
Defined.

(** ** The orchestrator *)

(** The three assignments [dtr_daemon] starts with. *)
Lemma dtr_daemon_entry env cb cb_arg foreground w :
  dtr_daemon env cb cb_arg foreground w =
  bind (if negb foreground then detach env else ret None)
       (fun early =>
          match early with
          | Some b => ret b
          | None => serve env cb cb_arg foreground
          end)
       (set_exit_code 1 (set_callback_arg cb_arg (set_callbacks (Some cb) w))).
Proof. reflexivity. Qed.

(** C6. In the parent of the manual fork, [dtr_daemon] returns true with
    exit code 0 having done nothing after the fork: the world it returns in
    is the world at entry with the callbacks recorded, the fork logged and
    the exit code stored, so no channel, no thread, no handler and no call of
    [on_start]. *)
Theorem dtr_daemon_parent_returns env cb cb_arg w pid :
  HAVE_DAEMON env = false ->
  os_fork env = ForkParent pid ->
  dtr_daemon env cb cb_arg false w =
    Ret true (set_exit_code 0
               (set_trace (trace w ++ [EvFork])
                 (set_exit_code 1 (set_callback_arg cb_arg (set_callbacks (Some cb) w))))) /\
  exit_code (world_of (dtr_daemon env cb cb_arg false w)) = 0 /\
  fds (world_of (dtr_daemon env cb cb_arg false w)) = fds w /\
  thread (world_of (dtr_daemon env cb cb_arg false w)) = thread w /\
  handlers (world_of (dtr_daemon env cb cb_arg false w)) = handlers w /\
  trace (world_of (dtr_daemon env cb cb_arg false w)) = trace w ++ [EvFork].
Proof.
  intros Hd Hf.
  assert (dtr_daemon env cb cb_arg false w =
    Ret true (set_exit_code 0
               (set_trace (trace w ++ [EvFork])
                 (set_exit_code 1 (set_callback_arg cb_arg (set_callbacks (Some cb) w)))))) as E.
  { rewrite dtr_daemon_entry. cbn [negb]. unfold detach. rewrite Hd.
    unfold fork_. rewrite Hf. exec. reflexivity. }
  rewrite E. repeat split.
Qed.

Lemma dtr_daemon_parent_returns_witness :
  dtr_daemon env_parent cb0 55 false w0 =
    Ret true (set_exit_code 0
               (set_trace [EvFork]
                 (set_exit_code 1 (set_callback_arg 55 (set_callbacks (Some cb0) w0))))) /\
  exit_code (world_of (dtr_daemon env_parent cb0 55 false w0)) = 0 /\
  fds (world_of (dtr_daemon env_parent cb0 55 false w0)) = fds w0 /\
  thread (world_of (dtr_daemon env_parent cb0 55 false w0)) = NoThread /\
  handlers (world_of (dtr_daemon env_parent cb0 55 false w0)) = ∅ /\
  trace (world_of (dtr_daemon env_parent cb0 55 false w0)) = [EvFork].
Proof.
  apply (dtr_daemon_parent_returns env_parent cb0 55 w0 4242); reflexivity.
Defined.

(** ** Frame rules *)

Lemma keeps_refl s w : keeps s w w.
Proof.
  split; try reflexivity. intros _. exists []. rewrite app_nil_r. split; reflexivity.
Qed.

Lemma keeps_trans s w1 w2 w3 : keeps s w1 w2 -> keeps s w2 w3 -> keeps s w1 w3.
Proof.
  intros [a1 b1 c1 d1 e1] [a2 b2 c2 d2 e2]. split.
  - congruence.
  - congruence.
  - congruence.
  - intros Hs. rewrite d2, d1; auto.
  - intros Hs. destruct (e1 Hs) as (ev1 & E1 & F1). destruct (e2 Hs) as (ev2 & E2 & F2).
    exists (ev1 ++ ev2). rewrite E2, E1, <- app_assoc. split; [reflexivity |].
    rewrite forallb_app, F1, F2. reflexivity.
Qed.

Lemma keeps_weaken s w w' : keeps true w w' -> keeps s w w'.
Proof. intros [a b c d e]. split; auto. Qed.

Lemma kept_weaken {A} s (m : M A) : kept true m -> kept s m.
Proof. intros H w. apply keeps_weaken, H. Qed.

Lemma kept_ret {A} s (a : A) : kept s (ret a).
Proof. intros w. apply keeps_refl. Qed.

Lemma kept_halt {A} s why : kept s (@halt_with A why).
Proof. intros w. apply keeps_refl. Qed.

Lemma kept_get {A} s (f : World -> A) : kept s (get f).
Proof. intros w. apply keeps_refl. Qed.

Lemma kept_bind {A B} s (m : M A) (k : A -> M B) :
  kept s m -> (forall a, kept s (k a)) -> kept s (bind m k).
Proof.
  intros Hm Hk w. unfold bind. specialize (Hm w).
  destruct (m w) as [a w1 | why w1]; [| exact Hm].
  eapply keeps_trans; [exact Hm | apply Hk].
Qed.

Lemma kept_modify s (f : World -> World) :
  (forall w, keeps s w (f w)) -> kept s (modify f).
Proof. intros H w. apply H. Qed.

Lemma kept_log s e : not_start e = true -> kept s (log e).
Proof.
  intros He w. unfold log, modify. proj. split; try reflexivity.
  intros _. exists [e]. split; [reflexivity |]. cbn. rewrite He. reflexivity.
Qed.

(** A setter of a field that [keeps] does not mention. *)
Ltac keeps_setter :=
  intros; split; proj; try reflexivity; intros _; exists []; rewrite app_nil_r;
  split; reflexivity.

Ltac kept_step :=
  match goal with
  | |- kept _ (bind _ _) => apply kept_bind; [| intros ?]
  | |- kept _ (ret _) => apply kept_ret
  | |- kept _ (halt_with _) => apply kept_halt
  | |- kept _ (get _) => apply kept_get
  | |- kept _ (fail_with _) => unfold fail_with
  | |- kept _ (log _) => apply kept_log; reflexivity
  | |- kept _ (modify _) => apply kept_modify; keeps_setter
  | |- kept _ (match ?x with _ => _ end) => destruct x
  | |- kept _ (let _ := _ in _) => cbv zeta
  end.

Ltac kept_auto := repeat kept_step; auto.

Lemma kept_daemon env s a b : a = true -> kept s (daemon_ env a b).
Proof. intros ->. unfold daemon_. kept_auto. Qed.

Lemma kept_fork env s : kept s (fork_ env).
Proof. unfold fork_. kept_auto. Qed.

Lemma kept_setsid env s : kept s (setsid_ env).
Proof. unfold setsid_. kept_auto. Qed.

Lemma kept_open env s path : kept s (open_ env path).
Proof. unfold open_. kept_auto. Qed.

Lemma kept_dup2 s a b : kept s (dup2_ a b).
Proof. unfold dup2_. kept_auto. Qed.

Lemma kept_close s fd : kept s (close_ fd).
Proof. unfold close_. kept_auto. Qed.

Lemma kept_pipe env s : kept s (pipe_ env set_signal_pipe).
Proof. unfold pipe_. kept_auto. Qed.

Lemma kept_write env s fd v : kept s (write_ env fd v).
Proof. unfold write_. kept_auto. Qed.

Lemma kept_read s fd : kept s (read_ fd).
Proof. unfold read_. kept_auto. Qed.

Lemma kept_signal env s sig h : kept s (signal_ env sig h).
Proof. unfold signal_. kept_auto. Qed.

Lemma kept_assert env s c : kept s (assert_ env c).
Proof. unfold assert_. kept_auto. Qed.

Lemma kept_set_system_error env s c msg : kept s (set_system_error env c msg).
Proof. unfold set_system_error, tr_error_set. kept_auto. Qed.

#[local] Hint Resolve kept_daemon kept_fork kept_setsid kept_open kept_dup2 kept_close
  kept_pipe kept_write kept_read kept_signal kept_assert kept_set_system_error : core.

Lemma kept_handle_signal env s sig : kept s (handle_signal env sig).
Proof. unfold handle_signal, deref, call_void. kept_auto. Qed.

Lemma kept_send_signal_to_pipe env s sig : kept s (send_signal_to_pipe env sig).
Proof. unfold send_signal_to_pipe. kept_auto. Qed.

#[local] Hint Resolve kept_handle_signal kept_send_signal_to_pipe : core.

Lemma kept_signal_loop env s fuel : kept s (signal_loop env fuel).
Proof.
  induction fuel as [| k IH]; cbn [signal_loop]; kept_auto.
Qed.

Lemma kept_thread_main env s : kept s (signal_handler_thread_main env).
Proof. unfold signal_handler_thread_main. kept_auto. apply kept_signal_loop. Qed.

Lemma kept_pthread_create env s r : kept s (pthread_create_ env r).
Proof. unfold pthread_create_. kept_auto. Qed.

Lemma kept_pthread_join s t : kept s t -> kept s (pthread_join_ t).
Proof. intros Ht. unfold pthread_join_. kept_auto. Qed.

Lemma kept_create_signal_pipe env s : kept s (create_signal_pipe env).
Proof. unfold create_signal_pipe. kept_auto. Qed.

Lemma kept_destroy_signal_pipe s : kept s destroy_signal_pipe.
Proof. unfold destroy_signal_pipe. kept_auto. Qed.

#[local] Hint Resolve kept_thread_main kept_pthread_create kept_pthread_join
  kept_create_signal_pipe kept_destroy_signal_pipe : core.

Lemma kept_create_signal_handler_thread env s : kept s (create_signal_handler_thread env).
Proof. unfold create_signal_handler_thread. kept_auto. Qed.

Lemma kept_destroy_signal_handler_thread env s t :
  kept s t -> kept s (destroy_signal_handler_thread env t).
Proof. intros Ht. unfold destroy_signal_handler_thread. kept_auto. Qed.

Lemma kept_setup_signal_handler env s sig : kept s (setup_signal_handler env sig).
Proof. unfold setup_signal_handler. kept_auto. Qed.

Lemma kept_deliver env s sig : kept s (deliver env sig).
Proof. unfold deliver. kept_auto. Qed.

Lemma kept_deliver_all env s sigs : kept s (deliver_all env sigs).
Proof.
  induction sigs as [| sig rest IH]; cbn [deliver_all]; kept_auto. apply kept_deliver.
Qed.

(** ** Descriptors *)

Lemma first_free_spec (m : gmap Z file) fuel fd :
  m !! first_free m fd fuel = None \/
  (first_free m fd fuel = fd + Z.of_nat fuel /\
   forall k, fd <= k < fd + Z.of_nat fuel -> is_Some (m !! k)).
Proof.
  revert fd. induction fuel as [| n IH]; intros fd; cbn [first_free].
  - right. split; [lia |]. intros k Hk. lia.
  - destruct (m !! fd) as [f |] eqn:E.
    + destruct (IH (fd + 1)) as [H | [H1 H2]]; [left; exact H |].
      right. split; [lia |]. intros k Hk.
      destruct (decide (k = fd)) as [-> | Hne]; [rewrite E; eauto |].
      apply H2. lia.
    + left. exact E.
Qed.

(** The descriptor a successful [open] or [pipe] hands out was not open. *)
Lemma lowest_free_free (m : gmap Z file) : m !! lowest_free m = None.
Proof.
  unfold lowest_free.
  destruct (first_free_spec m (size m) 0) as [H | [H1 H2]]; [exact H |].
  rewrite H1. apply (not_elem_of_dom (D := gset Z)).
  set (S := list_to_set (seqZ 0 (Z.of_nat (size m))) : gset Z).
  assert (S ⊆ dom m) as Hsub.
  { intros k Hk. apply elem_of_list_to_set, elem_of_seqZ in Hk.
    apply elem_of_dom, H2. lia. }
  assert (size S = size m) as Hsize.
  { unfold S. rewrite size_list_to_set by apply NoDup_seqZ.
    rewrite length_seqZ. lia. }
  assert (S = dom m) as Heq.
  { apply set_subseteq_size_eq; [exact Hsub |]. rewrite size_dom. lia. }
  rewrite <- Heq. intros Hin.
  apply elem_of_list_to_set, elem_of_seqZ in Hin. lia.
Qed.

(** The two descriptors of a new pipe: distinct, and closing both gives the
    table back. *)
Lemma pipe_fds (m : gmap Z file) :
  let r := lowest_free m in
  let wr := lowest_free (<[r:=PipeRead]> m) in
  let m2 := <[wr:=PipeWrite]> (<[r:=PipeRead]> m) in
  r <> wr /\
  m2 !! r = Some PipeRead /\
  m2 !! wr = Some PipeWrite /\
  delete r m2 !! wr = Some PipeWrite /\
  delete wr (delete r m2) = m.
Proof.
  intros r wr m2.
  pose proof (lowest_free_free m) as Hr. fold r in Hr.
  pose proof (lowest_free_free (<[r:=PipeRead]> m)) as Hw. fold wr in Hw.
  assert (r <> wr) as Hne.
  { intros E. rewrite <- E, lookup_insert_eq in Hw. discriminate. }
  rewrite lookup_insert_ne in Hw by exact Hne.
  unfold m2. repeat split.
  - exact Hne.
  - rewrite lookup_insert_ne by congruence. apply lookup_insert_eq.
  - apply lookup_insert_eq.
  - rewrite lookup_delete_ne by exact Hne. apply lookup_insert_eq.
  - rewrite delete_insert_ne by exact Hne. rewrite delete_insert_eq.
    rewrite delete_insert_eq. rewrite (delete_id m r Hr). apply delete_id, Hw.
Qed.

(** ** Step by step through the set-up *)

Lemma kept_ret_inv {A} s (m : M A) w a w' : kept s m -> m w = Ret a w' -> keeps s w w'.
Proof. intros H E. specialize (H w). rewrite E in H. exact H. Qed.

Lemma kept_halt_inv {A} s (m : M A) w why w' : kept s m -> m w = Halt why w' -> keeps s w w'.
Proof. intros H E. specialize (H w). rewrite E in H. exact H. Qed.

Lemma same_channel_refl w : same_channel w w.
Proof. split; reflexivity. Qed.

Lemma same_channel_trans w1 w2 w3 :
  same_channel w1 w2 -> same_channel w2 w3 -> same_channel w1 w3.
Proof. intros [] []. split; congruence. Qed.

Lemma channel_up_same m w w' : channel_up m w -> same_channel w w' -> channel_up m w'.
Proof. intros [] []. split; congruence. Qed.

Lemma setup_signal_handler_ok env sig w :
  sig <> 0 -> os_signal env sig = None ->
  exists w', setup_signal_handler env sig w = Ret true w' /\
             same_channel w w' /\ error w' = error w /\
             handlers w' = <[sig:=Handler_send_signal_to_pipe]> (handlers w) /\
             keeps true w w'.
Proof.
  intros Hsig Hos.
  assert (exists w', setup_signal_handler env sig w = Ret true w' /\
             same_channel w w' /\ error w' = error w /\
             handlers w' = <[sig:=Handler_send_signal_to_pipe]> (handlers w))
    as (w' & E & H).
  { unfold setup_signal_handler, assert_, signal_.
    apply Z.eqb_neq in Hsig. rewrite Hsig, Hos. cbn [negb].
    destruct (NDEBUG env); exec; (eexists; split; [reflexivity |]);
      proj; (split; [split; reflexivity |]); split; reflexivity. }
  exists w'. split; [exact E |]. destruct H as (H1 & H2 & H3).
  refine (conj H1 (conj H2 (conj H3 _))).
  apply (kept_ret_inv true _ _ _ _ (kept_setup_signal_handler env true sig) E).
Qed.

Lemma setup_signal_handler_fails env sig w e :
  sig <> 0 -> os_signal env sig = Some e ->
  exists w', setup_signal_handler env sig w = Ret false w' /\
             same_channel w w' /\ is_Some (error w') /\
             handlers w' = handlers w /\
             keeps true w w'.
Proof.
  intros Hsig Hos.
  assert (exists w', setup_signal_handler env sig w = Ret false w' /\
             same_channel w w' /\ is_Some (error w') /\ handlers w' = handlers w)
    as (w' & E & H).
  { unfold setup_signal_handler, assert_, signal_, set_system_error, tr_error_set.
    apply Z.eqb_neq in Hsig. rewrite Hsig, Hos. cbn [negb].
    destruct (NDEBUG env); exec; cbn [is_SIG_ERR]; exec;
      (eexists; split; [reflexivity |]);
      proj; (split; [split; reflexivity |]); (split; [eauto | reflexivity]). }
  exists w'. split; [exact E |]. destruct H as (H1 & H2 & H3).
  refine (conj H1 (conj H2 (conj H3 _))).
  apply (kept_ret_inv true _ _ _ _ (kept_setup_signal_handler env true sig) E).
Qed.

Lemma with_pipe_lookups (m : gmap Z file) :
  pipe_read_fd m <> pipe_write_fd m /\
  with_pipe m !! pipe_read_fd m = Some PipeRead /\
  with_pipe m !! pipe_write_fd m = Some PipeWrite /\
  delete (pipe_read_fd m) (with_pipe m) !! pipe_write_fd m = Some PipeWrite /\
  delete (pipe_write_fd m) (delete (pipe_read_fd m) (with_pipe m)) = m.
Proof. exact (pipe_fds m). Qed.

Lemma destroy_signal_pipe_up m w :
  fds w = with_pipe m ->
  signal_pipe w = (pipe_read_fd m, pipe_write_fd m) ->
  exists w', destroy_signal_pipe w = Ret tt w' /\
             fds w' = m /\ thread w' = thread w /\ error w' = error w /\
             handlers w' = handlers w /\ nwrites w' = nwrites w /\
             dispatched w' = dispatched w.
Proof.
  intros Hfds Hpipe.
  destruct (with_pipe_lookups m) as (Hne & Hr & Hw & Hdw & Hdel).
  destruct w; cbn [fds signal_pipe] in Hfds, Hpipe; subst.
  unfold destroy_signal_pipe, close_. exec.
  rewrite Hr. exec. rewrite Hdw. exec.
  eexists. split; [reflexivity |]. proj. rewrite Hdel. repeat split.
Qed.

Lemma create_signal_handler_thread_pipe_fails env w e :
  os_pipe env = Some e ->
  exists w', create_signal_handler_thread env w = Ret (false, ret tt) w' /\
             same_channel w w' /\ is_Some (error w') /\ handlers w' = handlers w /\
             keeps true w w'.
Proof.
  intros Hos.
  assert (exists w', create_signal_handler_thread env w = Ret (false, ret tt) w' /\
             same_channel w w' /\ is_Some (error w') /\ handlers w' = handlers w)
    as (w' & E & H1 & H2 & H3).
  { unfold create_signal_handler_thread, create_signal_pipe, pipe_,
      set_system_error, tr_error_set.
    rewrite Hos. exec. change (-1 =? -1) with true. exec.
    eexists. split; [reflexivity |]. proj.
    split; [split; reflexivity |]. split; [eauto | reflexivity]. }
  exists w'. split; [exact E |]. refine (conj H1 (conj H2 (conj H3 _))).
  apply (kept_ret_inv true _ _ _ _ (kept_create_signal_handler_thread env true) E).
Qed.

Lemma create_signal_handler_thread_ok env w :
  os_pipe env = None -> os_pthread_create env = 0 ->
  exists w', create_signal_handler_thread env w
               = Ret (true, signal_handler_thread_main env) w' /\
             channel_up (fds w) w' /\ nwrites w' = nwrites w /\
             error w' = error w /\ handlers w' = handlers w /\
             keeps true w w'.
Proof.
  intros Hos Hth.
  assert (exists w', create_signal_handler_thread env w
               = Ret (true, signal_handler_thread_main env) w' /\
             channel_up (fds w) w' /\ nwrites w' = nwrites w /\
             error w' = error w /\ handlers w' = handlers w)
    as (w' & E & H1 & H2 & H3 & H4).
  { unfold create_signal_handler_thread, create_signal_pipe, pipe_, pthread_create_.
    rewrite Hos, Hth. exec. change (0 =? -1) with false. exec.
    change (0 =? 0) with true. exec.
    eexists. split; [reflexivity |]. proj.
    split; [split; reflexivity |]. repeat split. }
  exists w'. split; [exact E |]. refine (conj H1 (conj H2 (conj H3 (conj H4 _)))).
  apply (kept_ret_inv true _ _ _ _ (kept_create_signal_handler_thread env true) E).
Qed.

Lemma create_signal_handler_thread_no_thread env w :
  os_pipe env = None -> os_pthread_create env <> 0 ->
  exists t w', create_signal_handler_thread env w = Ret (false, t) w' /\
               fds w' = fds w /\ thread w' = thread w /\ nwrites w' = nwrites w /\
               is_Some (error w') /\ handlers w' = handlers w /\
               keeps true w w'.
Proof.
  intros Hos Hth.
  assert (exists t w', create_signal_handler_thread env w = Ret (false, t) w' /\
               fds w' = fds w /\ thread w' = thread w /\ nwrites w' = nwrites w /\
               is_Some (error w') /\ handlers w' = handlers w)
    as (t & w' & E & H).
  { unfold create_signal_handler_thread, create_signal_pipe, pipe_, pthread_create_,
      set_system_error, tr_error_set.
    rewrite Hos. apply Z.eqb_neq in Hth. rewrite Hth. exec.
    change (0 =? -1) with false. exec. rewrite Hth. exec.
    match goal with
    | |- context [destroy_signal_pipe ?w1] =>
        destruct (destroy_signal_pipe_up (fds w) w1) as (w' & E & F1 & F2 & F3 & F4 & F5 & _);
          [reflexivity | reflexivity |]; rewrite E
    end.
    eexists _, w'. split; [reflexivity |].
    rewrite F1, F2, F3, F4, F5. proj. repeat split. eauto. }
  exists t, w'. split; [exact E |]. destruct H as (H1 & H2 & H3 & H4 & H5).
  refine (conj H1 (conj H2 (conj H3 (conj H4 (conj H5 _))))).
  apply (kept_ret_inv true _ _ _ _ (kept_create_signal_handler_thread env true) E).
Qed.

(** The teardown, with the channel up and empty: the sentinel is written,
    the thread reads it and ends, and both descriptors are closed. *)
Lemma destroy_signal_handler_thread_up env m w e :
  channel_up m w ->
  os_write env (nwrites w) = WriteOk e ->
  exists w', destroy_signal_handler_thread env (signal_handler_thread_main env) w = Ret tt w' /\
             fds w' = m /\ thread w' = Joined /\ error w' = error w /\
             handlers w' = handlers w /\ dispatched w' = dispatched w /\
             keeps true w w'.
Proof.
  intros [Hfds Hpipe Hbuf Hth] Hos.
  assert (exists w', destroy_signal_handler_thread env (signal_handler_thread_main env) w
                       = Ret tt w' /\
             fds w' = m /\ thread w' = Joined /\ error w' = error w /\
             handlers w' = handlers w /\ dispatched w' = dispatched w)
    as (w' & E & H).
  { destruct (with_pipe_lookups m) as (Hne & Hr & Hw & Hdw & Hdel).
    destruct w; cbn [fds signal_pipe pipe_buf thread nwrites] in Hfds, Hpipe, Hbuf, Hth, Hos;
      subst.
    unfold destroy_signal_handler_thread, send_signal_to_pipe, write_, pthread_join_.
    exec. rewrite Hw. exec. rewrite Hos. exec.
    rewrite decide_True by reflexivity. exec.
    change (sizeof_int =? -1) with false. exec.
    match goal with
    | |- context [signal_handler_thread_main env ?w1] =>
        rewrite (thread_main_step env w1 0 [] Hr eq_refl)
    end.
    change (0 =? 0) with true. exec.
    match goal with
    | |- context [destroy_signal_pipe ?w1] =>
        destruct (destroy_signal_pipe_up m w1) as (w' & E & F1 & F2 & F3 & F4 & _ & F6);
          [reflexivity | reflexivity |]; rewrite E; clear E
    end.
    exists w'. split; [reflexivity |].
    rewrite F1, F2, F3, F4, F6. proj. repeat split. }
  exists w'. split; [exact E |]. destruct H as (H1 & H2 & H3 & H4 & H5).
  refine (conj H1 (conj H2 (conj H3 (conj H4 (conj H5 _))))).
  apply (kept_ret_inv true _ _ _ _
           (kept_destroy_signal_handler_thread env true _ (kept_thread_main env true)) E).
Qed.

Lemma destroy_signal_handler_thread_aborts env m w e t :
  channel_up m w ->
  os_write env (nwrites w) = WriteFails e ->
  exists w', destroy_signal_handler_thread env t w = Halt Aborted w' /\
             exit_code w' = exit_code w /\
             exists evs, trace w' = trace w ++ evs /\ forallb not_start evs = true.
Proof.
  intros [Hfds Hpipe Hbuf Hth] Hos.
  destruct (with_pipe_lookups m) as (Hne & Hr & Hw & Hdw & Hdel).
  destruct w; cbn [fds signal_pipe pipe_buf thread nwrites] in Hfds, Hpipe, Hbuf, Hth, Hos;
    subst.
  unfold destroy_signal_handler_thread, send_signal_to_pipe, write_.
  exec. rewrite Hw. exec. rewrite Hos. exec.
  change (-1 =? -1) with true. exec.
  eexists. split; [reflexivity |]. proj. split; [reflexivity |].
  eexists. split; reflexivity.
Qed.

(** ** Everything keeps the callbacks *)

Lemma keeps_false w w' :
  callbacks w' = callbacks w -> callback_arg w' = callback_arg w -> cwd w' = cwd w ->
  keeps false w w'.
Proof. intros H1 H2 H3. split; try assumption; intros H; discriminate H. Qed.

Lemma kept_false_log e : kept false (log e).
Proof. intros w. apply keeps_false; reflexivity. Qed.

Lemma kept_false_set_exit_code c : kept false (modify (set_exit_code c)).
Proof. intros w. apply keeps_false; reflexivity. Qed.

Lemma kept_detach env : kept false (detach env).
Proof.
  unfold detach.
  destruct (HAVE_DAEMON env).
  - kept_auto.
  - apply kept_bind; [auto |]. intros pid.
    destruct (pid =? -1); [kept_auto |].
    destruct (pid =? 0); [kept_auto |].
    apply kept_bind; [apply kept_false_set_exit_code | intros ?; apply kept_ret].
Qed.

Lemma create_handle_kept env s w ok t w' :
  create_signal_handler_thread env w = Ret (ok, t) w' -> kept s t.
Proof.
  unfold create_signal_handler_thread.
  unfold bind at 1. destruct (create_signal_pipe env w) as [[|] w1 | why w1]; [| |discriminate].
  - cbn [negb]. unfold pthread_create_, set_system_error, tr_error_set.
    destruct (os_pthread_create env =? 0) eqn:Hc; exec; rewrite ?Hc; exec.
    + change (0 =? 0) with true. exec. intros H. injection H as _ <- _.
      apply kept_thread_main.
    + match goal with
      | |- context [destroy_signal_pipe ?w2] => destruct (destroy_signal_pipe w2)
      end; [| discriminate].
      intros H. injection H as _ <- _. apply kept_ret.
  - cbn [negb]. unfold ret. intros H. injection H as _ <- _. apply kept_ret.
Qed.

Lemma kept_call_start env f arg fg : kept false (call_start env f arg fg).
Proof.
  unfold call_start.
  apply kept_bind; [apply kept_false_log | intros _].
  apply kept_bind; [apply kept_deliver_all | intros _]. apply kept_ret.
Qed.

Lemma kept_register env s :
  kept s (orelse (notM (setup_signal_handler env SIGINT))
         (orelse (notM (setup_signal_handler env SIGTERM))
                 (notM (setup_signal_handler env SIGHUP)))).
Proof.
  unfold orelse, notM. kept_auto; apply kept_setup_signal_handler.
Qed.

Lemma kept_serve env cb cb_arg fg : kept false (serve env cb cb_arg fg).
Proof.
  intros w. unfold serve. unfold bind at 1.
  pose proof (kept_create_signal_handler_thread env false w) as K.
  destruct (create_signal_handler_thread env w) as [[ok t] w1 | why w1] eqn:E; [| exact K].
  pose proof (create_handle_kept env false _ _ _ _ E) as Ht.
  eapply keeps_trans; [exact K |]. cbn [fst snd]. clear K E w.
  revert w1. change (kept false
    (if negb ok then ret false
     else bind (orelse (notM (setup_signal_handler env SIGINT))
               (orelse (notM (setup_signal_handler env SIGTERM))
                       (notM (setup_signal_handler env SIGHUP))))
            (fun failed =>
               if failed
               then bind (destroy_signal_handler_thread env t) (fun _ => ret false)
               else bind (call_start env (on_start cb) cb_arg fg) (fun c =>
                    bind (modify (set_exit_code c)) (fun _ =>
                    bind (destroy_signal_handler_thread env t) (fun _ => ret true)))))).
  destruct ok; cbn [negb]; [| apply kept_ret].
  apply kept_bind; [apply kept_register | intros failed].
  destruct failed.
  - apply kept_bind; [apply kept_destroy_signal_handler_thread, Ht | intros _; apply kept_ret].
  - apply kept_bind; [apply kept_call_start | intros c].
    apply kept_bind; [apply kept_false_set_exit_code | intros _].
    apply kept_bind; [apply kept_destroy_signal_handler_thread, Ht | intros _; apply kept_ret].
Qed.

Lemma dtr_daemon_keeps env cb cb_arg foreground w :
  keeps false (enter cb cb_arg w) (world_of (dtr_daemon env cb cb_arg foreground w)).
Proof.
  rewrite dtr_daemon_entry. fold (enter cb cb_arg w).
  revert w. generalize (enter cb cb_arg). intros f w. generalize (f w). clear f w.
  change (kept false
            (bind (if negb foreground then detach env else ret None)
               (fun early => match early with
                             | Some b => ret b
                             | None => serve env cb cb_arg foreground
                             end))).
  apply kept_bind.
  - destruct foreground; cbn [negb]; [apply kept_ret | apply kept_detach].
  - intros [b |]; [apply kept_ret | apply kept_serve].
Qed.

(** [w_thread []] is where a first call [dtr_daemon(cb0, 55, true)] made in
    [w0] stands when it enters [on_start]: the statements of [dtr_daemon] up
    to that call, run from [w0]. *)
Lemma w_thread_is_first_call :
  bind (create_signal_handler_thread env_ok) (fun _ =>
  bind (orelse (notM (setup_signal_handler env_ok SIGINT))
       (orelse (notM (setup_signal_handler env_ok SIGTERM))
               (notM (setup_signal_handler env_ok SIGHUP)))) (fun _ =>
  log (CallStart (on_start cb0) 55 true))) (enter cb0 55 w0)
  = Ret tt (w_thread []).
Proof. vm_compute. reflexivity. Qed.


(** ** The exit code *)

Lemma keeps_In w w' e : keeps true w w' -> In e (trace w) -> In e (trace w').
Proof.
  intros [_ _ _ _ Ht] Hin. destruct (Ht eq_refl) as (evs & -> & _).
  apply in_or_app. left. exact Hin.
Qed.

Lemma keeps_exit_code w w' : keeps true w w' -> exit_code w' = exit_code w.
Proof. intros [_ _ _ He _]. apply He. reflexivity. Qed.

(** A world written out as updates of [w], with events logged. *)
Ltac keeps_explicit :=
  split; proj; try reflexivity; intros _; eexists;
  (split; [rewrite <- ?app_assoc; reflexivity | reflexivity]).

(** One call further: case on how it ends, and remember what it kept. *)
Ltac kstep lem :=
  match goal with
  | |- context [match ?c with Ret _ _ => _ | Halt _ _ => _ end] =>
      lazymatch c with
      | ?m ?w1 =>
          let K := fresh "K" in
          pose proof (lem w1 : keeps true w1 (world_of c)) as K;
          destruct c as [?a ?w | ?why ?w]; cbn [world_of] in K
      end
  end.

Ltac keeps_chain :=
  repeat (eapply keeps_trans; [| eassumption]); first [keeps_explicit | apply keeps_refl].

Lemma detach_cases env w :
  match detach env w with
  | Ret (Some true) w' =>
      HAVE_DAEMON env = false /\ (exists pid, os_fork env = ForkParent pid) /\
      w' = set_exit_code 0 (set_trace (trace w ++ [EvFork]) w)
  | Ret (Some false) w' => keeps true w w' /\ is_Some (error w')
  | Ret None w' => keeps true w w'
  | Halt _ w' => keeps true w w'
  end.
Proof.
  unfold detach, set_system_error, tr_error_set.
  destruct (HAVE_DAEMON env) eqn:Hd.
  - unfold daemon_. destruct (os_daemon env); exec.
    + change (-1 =? -1) with true. exec. split; [keeps_explicit | eauto].
    + change (0 =? -1) with false. exec. keeps_explicit.
  - unfold fork_. destruct (os_fork env) as [e | | pid] eqn:Hf; exec.
    + change (-1 =? -1) with true. exec. split; [keeps_explicit | eauto].
    + change (0 =? -1) with false. change (0 =? 0) with true. exec.
      unfold setsid_. destruct (os_setsid env); exec.
      * change (-1 =? -1) with true. exec. split; [keeps_explicit | eauto].
      * change (0 =? -1) with false. exec.
        kstep (kept_open env true "/dev/null"); [| keeps_chain].
        kstep (kept_dup2 true a STDIN_FILENO); [| keeps_chain].
        kstep (kept_dup2 true a STDOUT_FILENO); [| keeps_chain].
        kstep (kept_dup2 true a STDERR_FILENO); [| keeps_chain].
        kstep (kept_close true a); keeps_chain.
    + cbn [Z.eqb]. exec. split; [reflexivity |]. split; [eauto | reflexivity].
Qed.

Ltac exit_last :=
  match goal with
  | K : keeps true ?a ?b |- exit_code ?b = _ => rewrite (keeps_exit_code _ _ K); proj
  end.

Ltac in_chain :=
  repeat match goal with
         | K : keeps true ?a ?b |- In _ (trace ?b) => apply (keeps_In _ _ _ K); proj
         end;
  apply in_or_app; right; left; reflexivity.

Lemma serve_exit_code env cb cb_arg fg w :
  match serve env cb cb_arg fg w with
  | Ret false w' => exit_code w' = exit_code w
  | Ret true w' =>
      exit_code w' = start_result env /\
      In (CallStart (on_start cb) cb_arg fg) (trace w')
  | Halt _ w' =>
      exit_code w' = exit_code w \/
      (exit_code w' = start_result env /\
       In (CallStart (on_start cb) cb_arg fg) (trace w'))
  end.
Proof.
  unfold serve. cbv beta iota delta [bind].
  pose proof (create_handle_kept env true w) as Ht.
  kstep (kept_create_signal_handler_thread env true);
    [| left; apply keeps_exit_code; keeps_chain].
  destruct a as [ok t]. specialize (Ht _ _ _ eq_refl). cbn [fst snd].
  destruct ok; cbn [negb]; [| unfold ret; apply keeps_exit_code; keeps_chain].
  kstep (kept_register env true); [| left; apply keeps_exit_code; keeps_chain].
  destruct a.
  - kstep (kept_destroy_signal_handler_thread env true t Ht).
    + unfold ret. apply keeps_exit_code. keeps_chain.
    + left. apply keeps_exit_code. keeps_chain.
  - unfold call_start. exec.
    kstep (kept_deliver_all env true (start_signals env)).
    + kstep (kept_destroy_signal_handler_thread env true t Ht).
      * split; [exit_last; reflexivity | in_chain].
      * right. split; [exit_last; reflexivity | in_chain].
    + left. exit_last. apply keeps_exit_code. keeps_chain.
Qed.

(** C10. [dtr_daemon] stores 1 in the caller's exit code before anything
    else, so whenever it returns false the exit code is 1; when the call
    ends with another value there, either it is the parent's side of the
    manual fork, which stored 0 and returned true, or [on_start] was called
    and returned that value. *)
Theorem dtr_daemon_exit_code env cb cb_arg foreground w :
  dtr_daemon env cb cb_arg foreground w =
    bind (if negb foreground then detach env else ret None)
         (fun early => match early with
                       | Some b => ret b
                       | None => serve env cb cb_arg foreground
                       end)
         (set_exit_code 1 (set_callback_arg cb_arg (set_callbacks (Some cb) w))) /\
  (forall w', dtr_daemon env cb cb_arg foreground w = Ret false w' -> exit_code w' = 1) /\
  (exit_code (world_of (dtr_daemon env cb cb_arg foreground w)) = 1 \/
   (foreground = false /\ HAVE_DAEMON env = false /\
    (exists pid, os_fork env = ForkParent pid) /\
    exists w', dtr_daemon env cb cb_arg foreground w = Ret true w' /\ exit_code w' = 0) \/
   (exit_code (world_of (dtr_daemon env cb cb_arg foreground w)) = start_result env /\
    In (CallStart (on_start cb) cb_arg foreground)
       (trace (world_of (dtr_daemon env cb cb_arg foreground w))))).
Proof.
  split; [apply dtr_daemon_entry |].
  rewrite dtr_daemon_entry.
  set (w1 := set_exit_code 1 (set_callback_arg cb_arg (set_callbacks (Some cb) w))).
  assert (exit_code w1 = 1) as H1 by reflexivity.
  assert (forall w2, exit_code w2 = 1 ->
            (forall w', serve env cb cb_arg foreground w2 = Ret false w' -> exit_code w' = 1) /\
            (exit_code (world_of (serve env cb cb_arg foreground w2)) = 1 \/
             (exit_code (world_of (serve env cb cb_arg foreground w2)) = start_result env /\
              In (CallStart (on_start cb) cb_arg foreground)
                 (trace (world_of (serve env cb cb_arg foreground w2)))))) as Hserve.
  { intros w2 H2. pose proof (serve_exit_code env cb cb_arg foreground w2) as S.
    destruct (serve env cb cb_arg foreground w2) as [[|] w3 | why w3]; cbn [world_of].
    - split; [discriminate | right; exact S].
    - split; [intros w' E; injection E as <-; congruence | left; congruence].
    - split; [discriminate |]. destruct S as [S | S]; [left; congruence | right; exact S]. }
  unfold bind. destruct foreground; cbn [negb].
  - unfold ret. destruct (Hserve w1 H1) as [Ha Hb]. split; [exact Ha |].
    destruct Hb as [Hb | Hb]; [left; exact Hb | right; right; exact Hb].
  - pose proof (detach_cases env w1) as D.
    destruct (detach env w1) as [[[|] |] w2 | why w2]; cbn [world_of].
    + destruct D as (Hd & Hf & ->). split; [discriminate |].
      right. left. split; [reflexivity |]. split; [exact Hd |]. split; [exact Hf |].
      eexists. split; reflexivity.
    + destruct D as [D _]. unfold ret. cbn [world_of].
      assert (exit_code w2 = 1) as H2 by (rewrite (keeps_exit_code _ _ D); exact H1).
      split; [intros w' E; injection E as <-; exact H2 | left; exact H2].
    + assert (exit_code w2 = 1) as H2 by (rewrite (keeps_exit_code _ _ D); exact H1).
      destruct (Hserve w2 H2) as [Ha Hb]. split; [exact Ha |].
      destruct Hb as [Hb | Hb]; [left; exact Hb | right; right; exact Hb].
    + split; [discriminate |]. left. rewrite (keeps_exit_code _ _ D). exact H1.
Qed.

(** ** Failures of the set-up *)

Lemma register_handlers env w :
  exists failed w',
    orelse (notM (setup_signal_handler env SIGINT))
      (orelse (notM (setup_signal_handler env SIGTERM))
              (notM (setup_signal_handler env SIGHUP))) w = Ret failed w' /\
    same_channel w w' /\ keeps true w w' /\
    (failed = true -> is_Some (error w')) /\
    (failed = false ->
       os_signal env SIGINT = None /\ os_signal env SIGTERM = None /\
       os_signal env SIGHUP = None) /\
    (os_signal env SIGINT = None ->
       handlers w' !! SIGINT = Some Handler_send_signal_to_pipe) /\
    (os_signal env SIGINT = None -> os_signal env SIGTERM = None ->
       handlers w' !! SIGTERM = Some Handler_send_signal_to_pipe).
Proof.
  unfold orelse, notM. cbv beta iota delta [bind ret].
  destruct (os_signal env SIGINT) as [e1 |] eqn:H1.
  { destruct (setup_signal_handler_fails env SIGINT w e1) as (w1 & E1 & S1 & R1 & G1 & K1);
      [discriminate | exact H1 |].
    rewrite E1. cbn [negb]. exists true, w1. split; [reflexivity |].
    repeat (split; [first [assumption | intros; discriminate | intros; assumption] |]).
    intros; discriminate. }
  destruct (setup_signal_handler_ok env SIGINT w) as (w1 & E1 & S1 & R1 & G1 & K1);
    [discriminate | exact H1 |].
  rewrite E1. cbn [negb].
  destruct (os_signal env SIGTERM) as [e2 |] eqn:H2.
  { destruct (setup_signal_handler_fails env SIGTERM w1 e2) as (w2 & E2 & S2 & R2 & G2 & K2);
      [discriminate | exact H2 |].
    rewrite E2. cbn [negb]. exists true, w2. split; [reflexivity |].
    split; [eapply same_channel_trans; eassumption |].
    split; [eapply keeps_trans; eassumption |].
    split; [intros _; exact R2 |]. split; [intros; discriminate |].
    split; [| intros; discriminate].
    intros _. rewrite G2, G1. apply lookup_insert_eq. }
  destruct (setup_signal_handler_ok env SIGTERM w1) as (w2 & E2 & S2 & R2 & G2 & K2);
    [discriminate | exact H2 |].
  rewrite E2. cbn [negb].
  assert (handlers w2 !! SIGINT = Some Handler_send_signal_to_pipe) as L1.
  { rewrite G2, G1. rewrite lookup_insert_ne by discriminate. apply lookup_insert_eq. }
  assert (handlers w2 !! SIGTERM = Some Handler_send_signal_to_pipe) as L2.
  { rewrite G2. apply lookup_insert_eq. }
  destruct (os_signal env SIGHUP) as [e3 |] eqn:H3.
  - destruct (setup_signal_handler_fails env SIGHUP w2 e3) as (w3 & E3 & S3 & R3 & G3 & K3);
      [discriminate | exact H3 |].
    rewrite E3. cbn [negb]. exists true, w3. split; [reflexivity |].
    split; [eapply same_channel_trans; [eapply same_channel_trans |]; eassumption |].
    split; [eapply keeps_trans; [eapply keeps_trans |]; eassumption |].
    split; [intros _; exact R3 |]. split; [intros; discriminate |].
    rewrite G3. split; intros; assumption.
  - destruct (setup_signal_handler_ok env SIGHUP w2) as (w3 & E3 & S3 & R3 & G3 & K3);
      [discriminate | exact H3 |].
    rewrite E3. cbn [negb]. exists false, w3. split; [reflexivity |].
    split; [eapply same_channel_trans; [eapply same_channel_trans |]; eassumption |].
    split; [eapply keeps_trans; [eapply keeps_trans |]; eassumption |].
    split; [intros; discriminate |]. split; [intros _; repeat split |].
    rewrite G3. split; intros; rewrite lookup_insert_ne by discriminate; assumption.
Qed.

Lemma serve_setup_failure env cb cb_arg fg w :
  setup_fails env ->
  keeps true w (world_of (serve env cb cb_arg fg w)) /\
  match serve env cb cb_arg fg w with
  | Ret b w' =>
      b = false /\ is_Some (error w') /\
      (thread w' = Joined \/ thread w' = thread w) /\
      fds w' = fds w /\
      (os_pipe env = None -> os_pthread_create env = 0 -> os_signal env SIGINT = None ->
         handlers w' !! SIGINT = Some Handler_send_signal_to_pipe) /\
      (os_pipe env = None -> os_pthread_create env = 0 -> os_signal env SIGINT = None ->
       os_signal env SIGTERM = None ->
         handlers w' !! SIGTERM = Some Handler_send_signal_to_pipe)
  | Halt why w' =>
      why = Aborted /\ exists e, os_write env (nwrites w) = WriteFails e
  end.
Proof.
  intros Hfail. unfold serve. cbv beta iota delta [bind].
  destruct (os_pipe env) as [e |] eqn:Hp.
  { destruct (create_signal_handler_thread_pipe_fails env w e Hp) as (w1 & E & S & R & G & K).
    rewrite E. cbn [fst snd negb world_of]. unfold ret. cbn [world_of].
    split; [exact K |]. destruct S as [S1 S2 S3 S4 S5].
    split; [reflexivity |]. split; [exact R |]. split; [right; exact S4 |].
    split; [exact S1 |]. split; intros; discriminate. }
  destruct (Z.eq_dec (os_pthread_create env) 0) as [Hc | Hc].
  2:{ destruct (create_signal_handler_thread_no_thread env w Hp Hc)
        as (t & w1 & E & F1 & F2 & F3 & R & G & K).
      rewrite E. cbn [fst snd negb world_of]. unfold ret. cbn [world_of].
      split; [exact K |].
      split; [reflexivity |]. split; [exact R |]. split; [right; exact F2 |].
      split; [exact F1 |]. split; intros; contradiction. }
  destruct (create_signal_handler_thread_ok env w Hp Hc) as (w1 & E & U & N & R & G & K).
  rewrite E. cbn [fst snd negb].
  destruct (register_handlers env w1) as (failed & w2 & E2 & S2 & K2 & R2 & A2 & L1 & L2).
  rewrite E2. destruct failed.
  2:{ exfalso. destruct (A2 eq_refl) as (A & B & C).
      destruct Hfail as [[x Hx] | [Hx | [[x Hx] | [[x Hx] | [x Hx]]]]]; congruence. }
  pose proof (channel_up_same _ _ _ U S2) as U2.
  assert (nwrites w2 = nwrites w) as N2 by (destruct S2; congruence).
  destruct (os_write env (nwrites w2)) as [e | e] eqn:Hw.
  - destruct (destroy_signal_handler_thread_up env (fds w) w2 e U2 Hw)
      as (w3 & E3 & F1 & F2 & F3 & F4 & F5 & K3).
    rewrite E3. unfold ret. cbn [world_of].
    split; [eapply keeps_trans; [eapply keeps_trans |]; eassumption |].
    split; [reflexivity |]. split; [rewrite F3; auto |].
    split; [left; exact F2 |]. split; [exact F1 |].
    rewrite F4. split; intros; auto.
  - destruct (destroy_signal_handler_thread_aborts env (fds w) w2 e
                (signal_handler_thread_main env) U2 Hw) as (w3 & E3 & _).
    pose proof (kept_halt_inv true _ _ _ _
                  (kept_destroy_signal_handler_thread env true _ (kept_thread_main env true))
                  E3) as K3.
    rewrite E3. cbn [world_of].
    split; [eapply keeps_trans; [eapply keeps_trans |]; eassumption |].
    split; [reflexivity |]. exists e. rewrite <- N2. exact Hw.
Qed.

(** C5 (as the code has it). When the pipe, the thread or the registration
    of a handler fails, [on_start] is not called and the exit code stays 1.
    [dtr_daemon] returns false with the error set, the dispatch thread, if it
    was started, joined, and the descriptor table as it was before the pipe
    was made; the handlers registered before the failure stay registered.
    The one other way out is the abort in [send_signal_to_pipe], when the
    write of the sentinel, the first write of the process, fails. *)
Theorem dtr_daemon_setup_failure env cb cb_arg foreground w w2 :
  setup_fails env ->
  (if negb foreground then detach env else ret None) (enter cb cb_arg w) = Ret None w2 ->
  (exists evs, trace (world_of (dtr_daemon env cb cb_arg foreground w)) = trace w ++ evs /\
               forallb not_start evs = true) /\
  exit_code (world_of (dtr_daemon env cb cb_arg foreground w)) = 1 /\
  match dtr_daemon env cb cb_arg foreground w with
  | Ret b w' =>
      b = false /\ is_Some (error w') /\
      (thread w' = Joined \/ thread w' = thread w2) /\
      fds w' = fds w2 /\
      (os_pipe env = None -> os_pthread_create env = 0 -> os_signal env SIGINT = None ->
         handlers w' !! SIGINT = Some Handler_send_signal_to_pipe) /\
      (os_pipe env = None -> os_pthread_create env = 0 -> os_signal env SIGINT = None ->
       os_signal env SIGTERM = None ->
         handlers w' !! SIGTERM = Some Handler_send_signal_to_pipe)
  | Halt why w' =>
      why = Aborted /\ exists e, os_write env (nwrites w2) = WriteFails e
  end.
Proof.
  intros Hfail Hpast.
  rewrite dtr_daemon_entry. fold (enter cb cb_arg w).
  unfold bind at 1 2 3. rewrite Hpast.
  destruct (serve_setup_failure env cb cb_arg foreground w2 Hfail) as [K S].
  assert (keeps true (enter cb cb_arg w) w2) as K0.
  { destruct foreground; cbn [negb] in Hpast.
    - unfold ret in Hpast. injection Hpast as <-. apply keeps_refl.
    - pose proof (detach_cases env (enter cb cb_arg w)) as D. rewrite Hpast in D. exact D. }
  pose proof (keeps_trans _ _ _ _ K0 K) as [_ _ _ He Ht].
  split; [exact (Ht eq_refl) |]. split; [rewrite He by reflexivity; reflexivity |].
  exact S.
Qed.

Lemma dtr_daemon_setup_failure_witness :
  (exists evs, trace (world_of (dtr_daemon env_sigterm_fails cb0 55 true w0)) = trace w0 ++ evs /\
               forallb not_start evs = true) /\
  exit_code (world_of (dtr_daemon env_sigterm_fails cb0 55 true w0)) = 1 /\
  match dtr_daemon env_sigterm_fails cb0 55 true w0 with
  | Ret b w' =>
      b = false /\ is_Some (error w') /\
      (thread w' = Joined \/ thread w' = thread (enter cb0 55 w0)) /\
      fds w' = fds (enter cb0 55 w0) /\
      (os_pipe env_sigterm_fails = None -> os_pthread_create env_sigterm_fails = 0 ->
       os_signal env_sigterm_fails SIGINT = None ->
         handlers w' !! SIGINT = Some Handler_send_signal_to_pipe) /\
      (os_pipe env_sigterm_fails = None -> os_pthread_create env_sigterm_fails = 0 ->
       os_signal env_sigterm_fails SIGINT = None ->
       os_signal env_sigterm_fails SIGTERM = None ->
         handlers w' !! SIGTERM = Some Handler_send_signal_to_pipe)
  | Halt why w' =>
      why = Aborted /\
      exists e, os_write env_sigterm_fails (nwrites (enter cb0 55 w0)) = WriteFails e
  end.
Proof.
  apply (dtr_daemon_setup_failure env_sigterm_fails cb0 55 true w0 (enter cb0 55 w0)).
  - right. right. right. left. exists 22. reflexivity.
  - reflexivity.
Defined.

(** C5, refuted as stated. Registering SIGTERM fails after SIGINT was
    registered: [dtr_daemon] returns false with the channel closed, and the
    SIGINT handler, which was not there before, is still installed; the next
    SIGINT makes it write to the closed descriptor and abort the process.
    And when the rollback's own write of the sentinel fails, [dtr_daemon]
    does not return at all. *)
Lemma dtr_daemon_failure_leaves_handler :
  handlers w0 !! SIGINT = None /\
  (exists w', dtr_daemon env_sigterm_fails cb0 55 true w0 = Ret false w' /\
              handlers w' !! SIGINT = Some Handler_send_signal_to_pipe /\
              fds w' !! snd (signal_pipe w') = None /\
              exists w'', deliver env_sigterm_fails SIGINT w' = Halt Aborted w'') /\
  (exists w', dtr_daemon env_sigterm_and_write_fail cb0 55 true w0 = Halt Aborted w').
Proof.
  split; [reflexivity |]. split.
  - eexists. split; [vm_compute; reflexivity |].
    split; [reflexivity |]. split; [reflexivity |].
    eexists. vm_compute. reflexivity.
  - eexists. vm_compute. reflexivity.
Qed.

(** ** Daemonizing by hand *)

Lemma insert_keeps_dev_null (m : gmap Z file) k a :
  m !! a = Some DevNull -> <[k:=DevNull]> m !! a = Some DevNull.
Proof.
  intros H. destruct (decide (k = a)) as [-> | Hne].
  - apply lookup_insert_eq.
  - rewrite lookup_insert_ne by exact Hne. exact H.
Qed.

Lemma detach_child_exec env w :
  HAVE_DAEMON env = false -> os_fork env = ForkChild -> os_setsid env = None ->
  exists w', detach env w = Ret None w' /\
    session_leader w' = true /\ cwd w' = cwd w /\
    trace w' = trace w ++
      [EvFork; EvSetsid; EvOpen "/dev/null";
       EvDup2 (dev_null_fd env w) STDIN_FILENO; EvDup2 (dev_null_fd env w) STDOUT_FILENO;
       EvDup2 (dev_null_fd env w) STDERR_FILENO; EvClose (dev_null_fd env w)] /\
    (os_open env = None -> 2 < lowest_free (fds w) ->
       fds w' !! STDIN_FILENO = Some DevNull /\
       fds w' !! STDOUT_FILENO = Some DevNull /\
       fds w' !! STDERR_FILENO = Some DevNull /\
       forall fd, 2 < fd -> fds w' !! fd = fds w !! fd) /\
    (is_Some (os_open env) -> fds w !! (-1) = None -> fds w' = fds w).
Proof.
  intros Hd Hf Hs. unfold detach, dev_null_fd. rewrite Hd.
  unfold fork_, setsid_. rewrite Hf, Hs. exec.
  change (0 =? -1) with false. change (0 =? 0) with true. exec.
  unfold open_. destruct (os_open env) as [e |] eqn:Ho; exec.
  - unfold dup2_, close_. exec.
    repeat match goal with
           | |- context [match ?m !! ?k with _ => _ end] => destruct (m !! k) eqn:?; exec
           end;
      first [ congruence
            | (eexists; split; [reflexivity |]); proj;
              rewrite <- ?app_assoc; repeat split;
              first [discriminate | intros; congruence] ].
  - change (file_of_path "/dev/null") with DevNull.
    set (a := lowest_free (fds w)).
    set (m1 := <[a:=DevNull]> (fds w)).
    assert (m1 !! a = Some DevNull) as H1 by apply lookup_insert_eq.
    pose proof (insert_keeps_dev_null m1 STDIN_FILENO a H1) as H2.
    pose proof (insert_keeps_dev_null _ STDOUT_FILENO a H2) as H3.
    pose proof (insert_keeps_dev_null _ STDERR_FILENO a H3) as H4.
    unfold dup2_, close_. exec.
    rewrite H1. exec. rewrite H2. exec. rewrite H3. exec. rewrite H4. exec.
    eexists. split; [reflexivity |]. proj.
    rewrite <- ?app_assoc.
    split; [reflexivity |]. split; [reflexivity |]. split; [reflexivity |].
    split; [| intros [x Hx]; discriminate Hx].
    intros _ Hfd. repeat split.
    + rewrite lookup_delete_ne by (unfold STDIN_FILENO; lia).
      do 2 (rewrite lookup_insert_ne by discriminate). apply lookup_insert_eq.
    + rewrite lookup_delete_ne by (unfold STDOUT_FILENO; lia).
      rewrite lookup_insert_ne by discriminate. apply lookup_insert_eq.
    + rewrite lookup_delete_ne by (unfold STDERR_FILENO; lia).
      apply lookup_insert_eq.
    + intros fd Hfd2. destruct (decide (fd = a)) as [-> | Hne].
      * rewrite lookup_delete_eq. symmetry. apply lowest_free_free.
      * rewrite lookup_delete_ne by congruence.
        do 3 (rewrite lookup_insert_ne
                by (unfold STDIN_FILENO, STDOUT_FILENO, STDERR_FILENO; lia)).
        unfold m1. rewrite lookup_insert_ne by congruence. reflexivity.
Qed.

(** C9 (as the code has it). In the child of the manual fork [dtr_daemon]
    calls [setsid]; if that fails it returns false with the error set.
    Otherwise the process leads a new session and the calls that follow are
    [open("/dev/null")], [dup2] onto 0, 1 and 2, and [close], none of them
    checked; when the open succeeds on a descriptor above 2, descriptors 0,
    1 and 2 are the null device afterwards and no other descriptor has
    changed; when the open fails, the descriptor table is left as it was.
    The working directory is the caller's, then and when [dtr_daemon]
    ends. *)
Theorem dtr_daemon_child env cb cb_arg w :
  HAVE_DAEMON env = false -> os_fork env = ForkChild ->
  cwd (world_of (dtr_daemon env cb cb_arg false w)) = cwd w /\
  match os_setsid env with
  | Some e =>
      exists w', dtr_daemon env cb cb_arg false w = Ret false w' /\
                 is_Some (error w') /\ session_leader w' = session_leader w
  | None =>
      exists w', dtr_daemon env cb cb_arg false w = serve env cb cb_arg false w' /\
        session_leader w' = true /\ cwd w' = cwd w /\
        trace w' = trace w ++
          [EvFork; EvSetsid; EvOpen "/dev/null";
           EvDup2 (dev_null_fd env w) STDIN_FILENO; EvDup2 (dev_null_fd env w) STDOUT_FILENO;
           EvDup2 (dev_null_fd env w) STDERR_FILENO; EvClose (dev_null_fd env w)] /\
        (os_open env = None -> 2 < lowest_free (fds w) ->
           fds w' !! STDIN_FILENO = Some DevNull /\
           fds w' !! STDOUT_FILENO = Some DevNull /\
           fds w' !! STDERR_FILENO = Some DevNull /\
           forall fd, 2 < fd -> fds w' !! fd = fds w !! fd) /\
        (is_Some (os_open env) -> fds w !! (-1) = None -> fds w' = fds w)
  end.
Proof.
  intros Hd Hf. split.
  { destruct (dtr_daemon_keeps env cb cb_arg false w) as [_ _ Hc _ _]. exact Hc. }
  destruct (os_setsid env) as [e |] eqn:Hs.
  - rewrite dtr_daemon_entry. cbn [negb]. unfold detach. rewrite Hd.
    unfold fork_, setsid_, set_system_error, tr_error_set. rewrite Hf, Hs. exec.
    change (0 =? -1) with false. change (0 =? 0) with true. exec.
    change (-1 =? -1) with true. exec.
    eexists. split; [reflexivity |]. proj. split; [eauto | reflexivity].
  - destruct (detach_child_exec env (enter cb cb_arg w) Hd Hf Hs)
      as (w' & E & H1 & H2 & H3 & H4 & H5).
    exists w'. rewrite dtr_daemon_entry. fold (enter cb cb_arg w). cbn [negb].
    unfold bind at 1. rewrite E.
    split; [reflexivity |]. split; [exact H1 |]. split; [exact H2 |].
    split; [exact H3 |]. split; [exact H4 | exact H5].
Qed.

Lemma dtr_daemon_child_witness :
  cwd (world_of (dtr_daemon env_ok cb0 55 false w0)) = "/home/user"%string /\
  exists w', dtr_daemon env_ok cb0 55 false w0 = serve env_ok cb0 55 false w' /\
    session_leader w' = true /\ cwd w' = "/home/user"%string /\
    trace w' = [EvFork; EvSetsid; EvOpen "/dev/null"; EvDup2 3 0; EvDup2 3 1;
                EvDup2 3 2; EvClose 3] /\
    (os_open env_ok = None -> 2 < lowest_free (fds w0) ->
       fds w' !! STDIN_FILENO = Some DevNull /\
       fds w' !! STDOUT_FILENO = Some DevNull /\
       fds w' !! STDERR_FILENO = Some DevNull /\
       forall fd, 2 < fd -> fds w' !! fd = fds w0 !! fd) /\
    (is_Some (os_open env_ok) -> fds w0 !! (-1) = None -> fds w' = fds w0).
Proof.
  apply (dtr_daemon_child env_ok cb0 55 w0); reflexivity.
Defined.

(** C9, refuted as stated. With no [/dev/null] to open the child goes on
    all the same: it leads its session, [on_start] runs and [dtr_daemon]
    returns true, and the three standard descriptors are still the
    terminal.  And in a process started with standard input closed, where
    every call succeeds, [open] returns 0 and the final [close] closes it
    again: when [on_start] runs, descriptor 0 is the read end of the
    channel. *)
Lemma dtr_daemon_child_keeps_terminal :
  (exists w', dtr_daemon env_no_dev_null cb0 55 false w0 = Ret true w' /\
     session_leader w' = true /\
     In (CallStart (on_start cb0) 55 false) (trace w') /\
     fds w' !! STDIN_FILENO = Some Tty /\
     fds w' !! STDOUT_FILENO = Some Tty /\
     fds w' !! STDERR_FILENO = Some Tty) /\
  (exists w', detach env_ok w_no_stdin = Ret None w' /\
     fds w' !! STDIN_FILENO = None /\
     exists w'', create_signal_handler_thread env_ok w'
                   = Ret (true, signal_handler_thread_main env_ok) w'' /\
                 fds w'' !! STDIN_FILENO = Some PipeRead).
Proof.
  split.
  - eexists. split; [vm_compute; reflexivity |].
    split; [reflexivity |]. split; [cbn; tauto |]. repeat split.
  - eexists. split; [vm_compute; reflexivity |].
    split; [reflexivity |].
    eexists. split.
    + unfold create_signal_handler_thread, create_signal_pipe, pipe_, pthread_create_.
      exec. reflexivity.
    + reflexivity.
Qed.

(** ** The loop bound is never hit *)

Lemma handle_signal_outcome env sig w :
  match handle_signal env sig w with
  | Ret _ w' =>
      pipe_buf w' = pipe_buf w /\ fds w' = fds w /\ signal_pipe w' = signal_pipe w /\
      callbacks w' = callbacks w
  | Halt why _ => why <> OutOfFuel
  end.
Proof.
  unfold handle_signal, assert_, literal_as_bool.
  destruct (sig =? SIGHUP); [| destruct ((sig =? SIGINT) || (sig =? SIGTERM))]; exec.
  - destruct (callbacks w) eqn:Hc; exec; [repeat split; assumption | discriminate].
  - destruct (callbacks w) eqn:Hc; exec; [repeat split; assumption | discriminate].
  - destruct (NDEBUG env); exec; repeat split.
Qed.

Lemma signal_loop_fuel env fuel w w' :
  (length (pipe_buf w) < fuel)%nat ->
  signal_loop env fuel w <> Halt OutOfFuel w'.
Proof.
  revert w. induction fuel as [| k IH]; intros w Hlen; [lia |].
  cbn [signal_loop]. unfold read_. exec.
  destruct (fds w !! (signal_pipe w).1) as [[| | | |] |]; exec;
    try (change (-1 =? sizeof_int) with false; exec; discriminate).
  destruct (pipe_buf w) as [| v rest] eqn:Hbuf; exec.
  - destruct (write_end_open (fds w)); [discriminate |].
    change (0 =? sizeof_int) with false. exec. discriminate.
  - change (sizeof_int =? sizeof_int) with true. proj.
    destruct (v =? 0); proj; [discriminate |].
    pose proof (handle_signal_outcome env v (set_pipe_buf rest w)) as H.
    destruct (handle_signal env v (set_pipe_buf rest w)) as [[] w1 | why w1].
    + destruct H as (Hb & _). apply IH. rewrite Hb. proj. cbn [length] in Hlen. lia.
    + intros E. injection E as -> _. apply H. reflexivity.
Qed.

Lemma thread_main_fuel env w w' :
  signal_handler_thread_main env w <> Halt OutOfFuel w'.
Proof.
  unfold signal_handler_thread_main. exec. apply signal_loop_fuel. lia.
Qed.

(** With the callbacks recorded and the sentinel somewhere in the pipe, the
    thread's routine returns. *)
Lemma thread_main_returns_from env w cb :
  callbacks w = Some cb ->
  fds w !! fst (signal_pipe w) = Some PipeRead ->
  In 0 (pipe_buf w) ->
  exists w', signal_handler_thread_main env w = Ret tt w' /\
             fds w' = fds w /\ signal_pipe w' = signal_pipe w.
Proof.
  remember (pipe_buf w) as buf eqn:Hbuf. revert w Hbuf.
  induction buf as [| v rest IH]; intros w Hbuf Hcb Hfd Hin; [destruct Hin |].
  rewrite (thread_main_step env w v rest Hfd (eq_sym Hbuf)).
  destruct (v =? 0) eqn:Hv; [eexists; repeat split |].
  destruct Hin as [-> | Hin]; [discriminate Hv |].
  unfold bind.
  pose proof (handle_signal_outcome env v (set_pipe_buf rest w)) as H.
  assert (exists w1, handle_signal env v (set_pipe_buf rest w) = Ret tt w1) as (w1 & E).
  { unfold handle_signal, assert_, literal_as_bool.
    destruct (v =? SIGHUP); [| destruct ((v =? SIGINT) || (v =? SIGTERM))]; exec;
      rewrite ?Hcb; try (destruct (NDEBUG env)); eexists; reflexivity. }
  rewrite E in H |- *. destruct H as (Hb & Hf & Hp & Hc).
  cbn [fds signal_pipe callbacks pipe_buf set_pipe_buf] in Hb, Hf, Hp, Hc.
  destruct (IH w1) as (w' & E' & F1 & F2).
  - rewrite Hb. reflexivity.
  - rewrite Hc. exact Hcb.
  - rewrite Hf, Hp. exact Hfd.
  - exact Hin.
  - exists w'. split; [| split; congruence].
    rewrite <- E'. unfold signal_handler_thread_main. exec.
    rewrite Hb. reflexivity.
Qed.

(** ** [dtr_daemon] returns, or aborts in the handler *)

Lemma send_signal_to_pipe_outcome env sig w :
  match send_signal_to_pipe env sig w with
  | Ret _ w' =>
      fds w' = fds w /\ signal_pipe w' = signal_pipe w /\ thread w' = thread w /\
      callbacks w' = callbacks w /\
      (fds w !! snd (signal_pipe w) = Some PipeWrite -> pipe_buf w' = pipe_buf w ++ [sig])
  | Halt why _ => why = Aborted
  end.
Proof.
  unfold send_signal_to_pipe, write_. exec.
  destruct (fds w !! (signal_pipe w).2) as [f |] eqn:Hf; exec.
  - destruct (os_write env (nwrites w)); exec.
    + change (sizeof_int =? -1) with false.
      destruct (decide (f = PipeWrite)) as [-> | Hne]; exec.
      * repeat split.
      * repeat split. intros H. congruence.
    + change (-1 =? -1) with true. exec. reflexivity.
  - change (-1 =? -1) with true. exec. reflexivity.
Qed.

Lemma deliver_all_outcome env sigs w :
  match deliver_all env sigs w with
  | Ret _ w' =>
      fds w' = fds w /\ signal_pipe w' = signal_pipe w /\ thread w' = thread w /\
      callbacks w' = callbacks w
  | Halt why _ => why = Aborted
  end.
Proof.
  revert w. induction sigs as [| sig rest IH]; intros w; cbn [deliver_all].
  - unfold ret. repeat split.
  - unfold bind at 1. unfold deliver. unfold bind at 1. unfold get at 1.
    destruct (handlers w !! sig) as [[] |].
    + pose proof (send_signal_to_pipe_outcome env sig w) as S.
      destruct (send_signal_to_pipe env sig w) as [[] w1 | why w1]; [| exact S].
      destruct S as (S1 & S2 & S3 & S4 & _).
      specialize (IH w1). destruct (deliver_all env rest w1) as [[] w2 | why w2]; [| exact IH].
      destruct IH as (I1 & I2 & I3 & I4). repeat split; congruence.
    + unfold ret. apply IH.
Qed.

Lemma destroy_signal_handler_thread_ends env m w cb :
  callbacks w = Some cb ->
  fds w = with_pipe m ->
  signal_pipe w = (pipe_read_fd m, pipe_write_fd m) ->
  thread w = Running ->
  match destroy_signal_handler_thread env (signal_handler_thread_main env) w with
  | Ret _ w' => fds w' = m /\ thread w' = Joined
  | Halt why _ => why = Aborted
  end.
Proof.
  intros Hcb Hfds Hpipe Hth.
  destruct (with_pipe_lookups m) as (Hne & Hr & Hw & Hdw & Hdel).
  unfold destroy_signal_handler_thread. unfold bind at 1.
  pose proof (send_signal_to_pipe_outcome env 0 w) as S.
  destruct (send_signal_to_pipe env 0 w) as [[] w1 | why w1]; [| exact S].
  destruct S as (S1 & S2 & S3 & S4 & S5).
  assert (pipe_buf w1 = pipe_buf w ++ [0]) as Hbuf.
  { apply S5. rewrite Hfds, Hpipe. exact Hw. }
  unfold bind at 1. unfold pthread_join_. exec. rewrite S3, Hth.
  set (w2 := set_trace (trace w1 ++ [EvPthreadJoin]) w1).
  destruct (thread_main_returns_from env w2 cb) as (w3 & E & F1 & F2).
  - unfold w2. proj. congruence.
  - unfold w2. proj. rewrite S1, S2, Hfds, Hpipe. exact Hr.
  - unfold w2. proj. rewrite Hbuf. apply in_or_app. right. left. reflexivity.
  - rewrite E.
    destruct (destroy_signal_pipe_up m (set_thread Joined w3)) as (w4 & E4 & G1 & G2 & _).
    + proj. rewrite F1. unfold w2. proj. congruence.
    + proj. rewrite F2. unfold w2. proj. congruence.
    + rewrite E4. split; [exact G1 | exact G2].
Qed.

(** Called with the channel up (both ends of the pipe open where
    [signal_pipe] says, the dispatch thread running, the callbacks set),
    [destroy_signal_handler_thread] comes to an end whatever the pipe still
    holds: it returns with both descriptors closed and the thread joined, or
    the process is aborted by the failed write of the sentinel.  The join
    never waits for a thread that will not finish. *)
Theorem destroy_signal_handler_thread_never_blocks env m w cb :
  callbacks w = Some cb ->
  fds w = with_pipe m ->
  signal_pipe w = (pipe_read_fd m, pipe_write_fd m) ->
  thread w = Running ->
  match destroy_signal_handler_thread env (signal_handler_thread_main env) w with
  | Ret _ w' => fds w' = m /\ thread w' = Joined
  | Halt why _ => why = Aborted
  end.
Proof. apply destroy_signal_handler_thread_ends. Qed.

Lemma destroy_signal_handler_thread_never_blocks_witness :
  exists w',
    destroy_signal_handler_thread env_ok (signal_handler_thread_main env_ok)
      (w_thread [SIGHUP; 10; SIGTERM]) = Ret tt w' /\
    fds w' = <[0:=Tty]> (<[1:=Tty]> (<[2:=Tty]> ∅)) /\ thread w' = Joined.
Proof.
  pose proof (destroy_signal_handler_thread_never_blocks env_ok
                (<[0:=Tty]> (<[1:=Tty]> (<[2:=Tty]> ∅)))
                (w_thread [SIGHUP; 10; SIGTERM]) cb0
                eq_refl eq_refl eq_refl eq_refl) as H.
  destruct (destroy_signal_handler_thread env_ok (signal_handler_thread_main env_ok)
              (w_thread [SIGHUP; 10; SIGTERM])) as [[] w' | why w'] eqn:E.
  - exists w'. split; [reflexivity | exact H].
  - exfalso. vm_compute in E. discriminate E.
Defined.

(** Where the sentinel is in the pipe the dispatch thread's routine
    returns: it neither waits in [read] nor stops on the way. *)
Theorem thread_main_returns env w cb :
  callbacks w = Some cb ->
  fds w !! fst (signal_pipe w) = Some PipeRead ->
  In 0 (pipe_buf w) ->
  exists w', signal_handler_thread_main env w = Ret tt w' /\
             fds w' = fds w /\ signal_pipe w' = signal_pipe w.
Proof.
  intros Hcb Hfd Hin. exact (thread_main_returns_from env w cb Hcb Hfd Hin).
Qed.

Lemma thread_main_returns_witness :
  exists w', signal_handler_thread_main env_ok (w_thread [SIGHUP; SIGINT; 0; SIGTERM])
               = Ret tt w' /\
             fds w' = fds (w_thread [SIGHUP; SIGINT; 0; SIGTERM]) /\
             signal_pipe w' = (3, 4).
Proof.
  apply (thread_main_returns env_ok (w_thread [SIGHUP; SIGINT; 0; SIGTERM]) cb0).
  - reflexivity.
  - reflexivity.
  - cbn. tauto.
Defined.

(** * More of [daemon-posix.cc] *)

(** ** The relay and the dispatch loop *)

Lemma handle_signal_calls env w cb sig :
  callbacks w = Some cb ->
  handle_signal env sig w =
    Ret tt match callback_for cb sig with
           | Some f => dispatch f w
           | None => w
           end.
Proof.
  intros Hcb. unfold handle_signal, callback_for, assert_, literal_as_bool.
  destruct (sig =? SIGHUP); [| destruct ((sig =? SIGINT) || (sig =? SIGTERM))]; exec.
  - rewrite Hcb. reflexivity.
  - rewrite Hcb. reflexivity.
  - destruct (NDEBUG env); reflexivity.
Qed.

(** When the handler returns it has done one thing: the identifier is at
    the tail of the pipe.  The statics, the dispositions, the descriptors,
    [errno] and the callbacks' log are as before; no callback has run. *)
Theorem send_signal_to_pipe_relays env sig w w' :
  fds w !! snd (signal_pipe w) = Some PipeWrite ->
  send_signal_to_pipe env sig w = Ret tt w' ->
  w' = relayed sig w.
Proof.
  intros Hfd. unfold send_signal_to_pipe, write_, relayed. exec. rewrite Hfd. exec.
  destruct (os_write env (nwrites w)) as [e | e]; exec.
  - rewrite decide_True by reflexivity. change (sizeof_int =? -1) with false. exec.
    intros H. injection H as <-. destruct w. reflexivity.
  - change (-1 =? -1) with true. exec. discriminate.
Qed.

Lemma send_signal_to_pipe_relays_witness :
  exists w', send_signal_to_pipe env_ok SIGTERM (w_thread [SIGHUP]) = Ret tt w' /\
             w' = relayed SIGTERM (w_thread [SIGHUP]) /\
             pipe_buf w' = [SIGHUP; SIGTERM] /\ dispatched w' = [].
Proof.
  eexists. split; [reflexivity |]. split; [| split; reflexivity].
  apply (send_signal_to_pipe_relays env_ok SIGTERM (w_thread [SIGHUP])); reflexivity.
Defined.

Lemma thread_main_fifo_from env w cb sigs rest :
  callbacks w = Some cb ->
  fds w !! fst (signal_pipe w) = Some PipeRead ->
  pipe_buf w = sigs ++ 0 :: rest ->
  Forall (fun sig => sig <> 0) sigs ->
  signal_handler_thread_main env w =
    Ret tt (set_dispatched (dispatched w ++ calls_for cb (callback_arg w) sigs)
              (set_pipe_buf rest w)).
Proof.
  revert w. induction sigs as [| sig sigs IH]; intros w Hcb Hfd Hbuf Hnz.
  - rewrite (thread_main_step env w 0 rest Hfd Hbuf). change (0 =? 0) with true. cbv iota.
    cbn [calls_for]. rewrite app_nil_r. destruct w. reflexivity.
  - apply Forall_cons in Hnz. destruct Hnz as [Hsig Hnz].
    rewrite (thread_main_step env w sig (sigs ++ 0 :: rest) Hfd Hbuf).
    apply Z.eqb_neq in Hsig. rewrite Hsig. unfold bind.
    set (w1 := set_pipe_buf (sigs ++ 0 :: rest) w).
    rewrite (handle_signal_calls env w1 cb sig) by exact Hcb.
    set (w2 := match callback_for cb sig with Some f => dispatch f w1 | None => w1 end).
    assert (signal_loop env (S (length (sigs ++ 0 :: rest))) w2
            = signal_handler_thread_main env w2) as ->.
    { unfold signal_handler_thread_main. exec.
      unfold w2, w1. destruct (callback_for cb sig); reflexivity. }
    rewrite (IH w2).
    + unfold w2, w1. cbn [calls_for].
      destruct (callback_for cb sig); destruct w; unfold dispatch; cbn;
        rewrite <- ?app_assoc; reflexivity.
    + unfold w2, w1. destruct (callback_for cb sig); exact Hcb.
    + unfold w2, w1. destruct (callback_for cb sig); exact Hfd.
    + unfold w2, w1. destruct (callback_for cb sig); reflexivity.
    + exact Hnz.
Qed.

(** The dispatch thread serves the pipe first in, first out: for what was
    written before the first sentinel it makes the calls of [calls_for], in
    that order and nothing else, and it returns leaving what follows the
    sentinel unread. *)
Theorem thread_main_fifo env w cb sigs rest :
  callbacks w = Some cb ->
  fds w !! fst (signal_pipe w) = Some PipeRead ->
  pipe_buf w = sigs ++ 0 :: rest ->
  Forall (fun sig => sig <> 0) sigs ->
  signal_handler_thread_main env w =
    Ret tt (set_dispatched (dispatched w ++ calls_for cb (callback_arg w) sigs)
              (set_pipe_buf rest w)).
Proof. apply thread_main_fifo_from. Qed.

Lemma thread_main_fifo_witness :
  signal_handler_thread_main env_ok (w_thread [SIGTERM; 10; SIGHUP; SIGINT; 0; SIGHUP]) =
    Ret tt (set_dispatched [CallVoid 200 55; CallVoid 300 55; CallVoid 200 55]
              (set_pipe_buf [SIGHUP] (w_thread [SIGTERM; 10; SIGHUP; SIGINT; 0; SIGHUP]))).
Proof.
  apply (thread_main_fifo env_ok (w_thread [SIGTERM; 10; SIGHUP; SIGINT; 0; SIGHUP]) cb0
           [SIGTERM; 10; SIGHUP; SIGINT] [SIGHUP]).
  - reflexivity.
  - reflexivity.
  - reflexivity.
  - repeat constructor; discriminate.
Defined.

(** ** A run in which every call succeeds *)

Lemma create_signal_handler_thread_created env w :
  os_pipe env = None -> os_pthread_create env = 0 ->
  create_signal_handler_thread env w = Ret (true, signal_handler_thread_main env) (created w).
Proof.
  intros Hp Hc.
  unfold create_signal_handler_thread, create_signal_pipe, pipe_, pthread_create_.
  rewrite Hp, Hc. exec. change (0 =? -1) with false. exec.
  change (0 =? 0) with true. exec. reflexivity.
Qed.

Lemma setup_signal_handler_installs env sig w :
  sig <> 0 -> os_signal env sig = None ->
  setup_signal_handler env sig w =
    Ret true (set_handlers (<[sig:=Handler_send_signal_to_pipe]> (handlers w))
                (logged [EvSignal sig] w)).
Proof.
  intros Hsig Hos. unfold setup_signal_handler, assert_, signal_.
  apply Z.eqb_neq in Hsig. rewrite Hsig, Hos. cbn [negb].
  destruct (NDEBUG env); exec; reflexivity.
Qed.

Lemma register_all env w :
  os_signal env SIGINT = None -> os_signal env SIGTERM = None ->
  os_signal env SIGHUP = None ->
  orelse (notM (setup_signal_handler env SIGINT))
    (orelse (notM (setup_signal_handler env SIGTERM))
            (notM (setup_signal_handler env SIGHUP))) w = Ret false (registered w).
Proof.
  intros H1 H2 H3. unfold orelse, notM. cbv beta iota delta [bind ret].
  rewrite (setup_signal_handler_installs env SIGINT w) by (discriminate || exact H1).
  cbn [negb].
  rewrite (setup_signal_handler_installs env SIGTERM) by (discriminate || exact H2).
  cbn [negb].
  rewrite (setup_signal_handler_installs env SIGHUP) by (discriminate || exact H3).
  cbn [negb]. reflexivity.
Qed.

Lemma send_signal_to_pipe_ok env sig w e :
  fds w !! snd (signal_pipe w) = Some PipeWrite ->
  os_write env (nwrites w) = WriteOk e ->
  send_signal_to_pipe env sig w = Ret tt (relayed sig w).
Proof.
  intros Hfd Hos. unfold send_signal_to_pipe, write_, relayed. exec.
  rewrite Hfd. exec. rewrite Hos. exec.
  rewrite decide_True by reflexivity. change (sizeof_int =? -1) with false. exec.
  destruct w. reflexivity.
Qed.

Lemma deliver_all_relays env sigs w :
  writes_succeed env ->
  fds w !! snd (signal_pipe w) = Some PipeWrite ->
  Forall (fun sig => handlers w !! sig = Some Handler_send_signal_to_pipe) sigs ->
  deliver_all env sigs w = Ret tt (relayed_all sigs w).
Proof.
  intros Hw. revert w. induction sigs as [| sig sigs IH]; intros w Hfd Hh; cbn [deliver_all].
  - reflexivity.
  - apply Forall_cons in Hh. destruct Hh as [Hsig Hh].
    unfold bind at 1. unfold deliver. exec. rewrite Hsig.
    destruct (Hw (nwrites w)) as [e He].
    rewrite (send_signal_to_pipe_ok env sig w e Hfd He).
    rewrite IH; [reflexivity | exact Hfd | exact Hh].
Qed.

Lemma fold_left_log (evs : list event) t : fold_left (fun t e => t ++ [e]) evs t = t ++ evs.
Proof.
  revert t. induction evs as [| e evs IH]; intros t; cbn [fold_left].
  - rewrite app_nil_r. reflexivity.
  - rewrite IH, <- app_assoc. reflexivity.
Qed.

Lemma relayed_all_world sigs w :
  relayed_all sigs w =
    set_pipe_buf (pipe_buf w ++ sigs)
      (set_nwrites (length sigs + nwrites w)
        (logged (EvWrite (snd (signal_pipe w)) <$> sigs) w)).
Proof.
  unfold relayed_all, logged. revert w.
  induction sigs as [| sig sigs IH]; intros w; cbn [fold_left length fmap list_fmap].
  - rewrite app_nil_r. destruct w. reflexivity.
  - rewrite IH. unfold relayed. destruct w. cbn.
    rewrite <- app_assoc. rewrite Nat.add_succ_r. reflexivity.
Qed.

Lemma destroy_signal_handler_thread_tears_down env cb m sigs w e :
  os_write env (nwrites w) = WriteOk e ->
  callbacks w = Some cb ->
  fds w = with_pipe m ->
  signal_pipe w = (pipe_read_fd m, pipe_write_fd m) ->
  thread w = Running ->
  pipe_buf w = sigs ->
  Forall (fun sig => sig <> 0) sigs ->
  destroy_signal_handler_thread env (signal_handler_thread_main env) w
    = Ret tt (torn_down cb m sigs w).
Proof.
  intros Hos Hcb Hfds Hpipe Hth Hbuf Hnz.
  destruct (with_pipe_lookups m) as (Hne & Hr & Hw & Hdw & Hdel).
  destruct w as [cbs carg sp en fd pb hs sl cw th nw ec er tr ds].
  cbn [callbacks fds signal_pipe thread pipe_buf nwrites] in *. subst.
  unfold destroy_signal_handler_thread. unfold bind at 1.
  erewrite send_signal_to_pipe_ok by eassumption.
  unfold bind at 1. unfold pthread_join_. exec. unfold relayed at 1 2. proj.
  match goal with
  | |- context [signal_handler_thread_main env ?w2] =>
      rewrite (thread_main_fifo_from env w2 cb sigs []);
        [| reflexivity | exact Hr | reflexivity | exact Hnz]
  end.
  unfold destroy_signal_pipe, close_. exec. unfold relayed. proj.
  rewrite Hr. exec. rewrite Hdw. exec. rewrite Hdel. reflexivity.
Qed.

Lemma three_handlers_lookup hs sig :
  one_of_three sig -> three_handlers hs !! sig = Some Handler_send_signal_to_pipe.
Proof.
  unfold three_handlers. intros [-> | [-> | ->]].
  - apply lookup_insert_eq.
  - do 2 (rewrite lookup_insert_ne by discriminate). apply lookup_insert_eq.
  - rewrite lookup_insert_ne by discriminate. apply lookup_insert_eq.
Qed.

Lemma one_of_three_nonzero sig : one_of_three sig -> sig <> 0.
Proof. intros [-> | [-> | ->]]; discriminate. Qed.

Lemma serve_succeeds env cb cb' cb_arg fg w :
  os_pipe env = None -> os_pthread_create env = 0 ->
  os_signal env SIGINT = None -> os_signal env SIGTERM = None ->
  os_signal env SIGHUP = None ->
  writes_succeed env ->
  Forall one_of_three (start_signals env) ->
  callbacks w = Some cb' ->
  serve env cb cb_arg fg w = Ret true (served env cb cb' cb_arg fg w).
Proof.
  intros Hp Hc H1 H2 H3 Hw Hsigs Hcb.
  destruct (with_pipe_lookups (fds w)) as (Hne & Hr & Hwr & Hdw & Hdel).
  unfold serve. unfold bind at 1.
  rewrite (create_signal_handler_thread_created env w Hp Hc). cbn [fst snd negb].
  unfold bind at 1. rewrite (register_all env (created w) H1 H2 H3).
  unfold call_start. exec.
  match goal with
  | |- context [deliver_all env ?l ?w3] =>
      rewrite (deliver_all_relays env l w3 Hw)
  end.
  - match goal with
    | |- context [destroy_signal_handler_thread env ?t ?w5] =>
        destruct (Hw (nwrites w5)) as [e He];
        rewrite (destroy_signal_handler_thread_tears_down env cb' (fds w) (start_signals env)
                   w5 e He)
    end.
    + unfold served. unfold logged at 1. cbn [fold_left]. reflexivity.
    + proj. rewrite relayed_all_world. exact Hcb.
    + proj. rewrite relayed_all_world. unfold registered, created, logged. proj. reflexivity.
    + proj. rewrite relayed_all_world. unfold registered, created, logged. proj. reflexivity.
    + proj. rewrite relayed_all_world. unfold registered, created, logged. proj. reflexivity.
    + proj. rewrite relayed_all_world. unfold registered, created, logged. proj. reflexivity.
    + eapply Forall_impl; [exact Hsigs |]. intros sig. apply one_of_three_nonzero.
  - unfold registered, created, logged. proj. exact Hwr.
  - eapply Forall_impl; [exact Hsigs |]. intros sig Hsig.
    unfold registered, created, logged. proj.
    apply (three_handlers_lookup (handlers w) sig Hsig).
Qed.

Lemma past_detach_keeps env cb cb_arg fg w w2 :
  (if negb fg then detach env else ret None) (enter cb cb_arg w) = Ret None w2 ->
  callbacks w2 = Some cb /\ callback_arg w2 = cb_arg /\ exit_code w2 = 1.
Proof.
  intros H. destruct fg; cbn [negb] in H.
  - unfold ret in H. injection H as <-. repeat split.
  - pose proof (detach_cases env (enter cb cb_arg w)) as D. rewrite H in D.
    destruct D as [Ha Hb _ Hc _]. rewrite Ha, Hb, Hc by reflexivity. repeat split.
Qed.



(** A run in which nothing fails, once past daemonization (in the
    foreground: from the start).  [dtr_daemon] returns true with [on_start]'s
    result as exit code; each signal that arrived while [on_start] ran was
    answered by its callback, once, in the order of arrival, with the context
    given; the channel's descriptors are closed again, the thread is joined,
    the three handlers are left installed and no error is set. *)
Theorem dtr_daemon_run env cb cb_arg fg w w2 :
  nothing_fails env ->
  Forall one_of_three (start_signals env) ->
  (if negb fg then detach env else ret None) (enter cb cb_arg w) = Ret None w2 ->
  exists w', dtr_daemon env cb cb_arg fg w = Ret true w' /\
    exit_code w' = start_result env /\
    dispatched w' = dispatched w2 ++ calls_for cb cb_arg (start_signals env) /\
    trace w' = trace w2 ++
      [EvPipe; EvPthreadCreate; EvSignal SIGINT; EvSignal SIGTERM; EvSignal SIGHUP;
       CallStart (on_start cb) cb_arg fg] ++
      (EvWrite (pipe_write_fd (fds w2)) <$> start_signals env) ++
      [EvWrite (pipe_write_fd (fds w2)) 0; EvPthreadJoin;
       EvClose (pipe_read_fd (fds w2)); EvClose (pipe_write_fd (fds w2))] /\
    fds w' = fds w2 /\ thread w' = Joined /\ pipe_buf w' = [] /\
    handlers w' = three_handlers (handlers w2) /\
    error w' = error w2 /\ session_leader w' = session_leader w2 /\ cwd w' = cwd w2 /\
    callbacks w' = Some cb /\ callback_arg w' = cb_arg.
Proof.
  intros (Hp & Hc & H1 & H2 & H3 & Hw) Hsigs Hpast.
  destruct (past_detach_keeps env cb cb_arg fg w w2 Hpast) as (Hcb & Harg & _).
  exists (served env cb cb cb_arg fg w2). split.
  { rewrite dtr_daemon_entry. fold (enter cb cb_arg w). unfold bind at 1. rewrite Hpast.
    apply serve_succeeds; assumption. }
  unfold served, torn_down. proj. rewrite relayed_all_world.
  unfold registered, created, logged. proj.
  rewrite !fold_left_log. rewrite Harg.
  repeat split; try assumption.
  rewrite <- !app_assoc. reflexivity.
Qed.

Lemma dtr_daemon_run_witness :
  exists w', dtr_daemon env_ok cb0 55 true w0 = Ret true w' /\
    exit_code w' = 7 /\
    dispatched w' = [CallVoid 300 55; CallVoid 200 55] /\
    trace w' =
      [EvPipe; EvPthreadCreate; EvSignal SIGINT; EvSignal SIGTERM; EvSignal SIGHUP;
       CallStart 100 55 true; EvWrite 4 SIGHUP; EvWrite 4 SIGTERM;
       EvWrite 4 0; EvPthreadJoin; EvClose 3; EvClose 4] /\
    fds w' = fds w0 /\ thread w' = Joined /\ pipe_buf w' = [] /\
    handlers w' = three_handlers ∅ /\
    error w' = None /\ session_leader w' = false /\ cwd w' = "/home/user"%string /\
    callbacks w' = Some cb0 /\ callback_arg w' = 55.
Proof.
  apply (dtr_daemon_run env_ok cb0 55 true w0 (enter cb0 55 w0)).
  - repeat split. intros n. exists 0. reflexivity.
  - constructor; [left; reflexivity |].
    constructor; [right; right; reflexivity |]. constructor.
  - reflexivity.
Defined.

(** ** Daemonization fails *)

(** Where the process detaches by [fork] and [setsid] itself (the build
    without [daemon]): when [fork] or [setsid] fails, [dtr_daemon] returns
    false with the error number of the call and the message
    "<call>() failed (<number>): <its description>"; nothing else has
    happened: no pipe, no thread, no handler, no callback, and the
    descriptors and the session are untouched. *)
Theorem dtr_daemon_detach_failure env cb cb_arg w e msg evs :
  HAVE_DAEMON env = false ->
  detach_failure env = Some (e, msg, evs) ->
  exists w', dtr_daemon env cb cb_arg false w = Ret false w' /\
    error w' = Some (system_error env e msg) /\
    errno w' = e /\ exit_code w' = 1 /\
    trace w' = trace w ++ evs /\
    fds w' = fds w /\ handlers w' = handlers w /\ thread w' = thread w /\
    signal_pipe w' = signal_pipe w /\ pipe_buf w' = pipe_buf w /\
    dispatched w' = dispatched w /\
    session_leader w' = session_leader w /\ cwd w' = cwd w.
Proof.
  intros Hd H. rewrite dtr_daemon_entry. cbn [negb].
  unfold detach_failure in H. unfold detach, set_system_error, tr_error_set, system_error.
  rewrite Hd. unfold fork_. destruct (os_fork env) as [e' | | pid]; [| | discriminate].
  - injection H as <- <- <-. exec. change (-1 =? -1) with true. exec.
    eexists. split; [reflexivity |]. proj. repeat split.
  - unfold setsid_. destruct (os_setsid env) as [e' |]; [| discriminate].
    injection H as <- <- <-. exec.
    change (0 =? -1) with false. change (0 =? 0) with true. exec.
    change (-1 =? -1) with true. exec.
    eexists. split; [reflexivity |]. proj. rewrite <- app_assoc. repeat split.
Qed.

Lemma dtr_daemon_detach_failure_witness :
  exists w', dtr_daemon env_fork_fails cb0 55 false w0 = Ret false w' /\
    error w' = Some {| code := 11;
                       message := "fork() failed (11): Resource temporarily unavailable" |} /\
    errno w' = 11 /\ exit_code w' = 1 /\
    trace w' = [EvFork] /\
    fds w' = fds w0 /\ handlers w' = ∅ /\ thread w' = NoThread /\
    signal_pipe w' = (0, 0) /\ pipe_buf w' = [] /\
    dispatched w' = [] /\
    session_leader w' = false /\ cwd w' = "/home/user"%string.
Proof.
  apply (dtr_daemon_detach_failure env_fork_fails cb0 55 w0 11 "fork() failed" [EvFork]);
    reflexivity.
Defined.

(** ** What [dtr_daemon] never does *)

Section Steps.

Variable R : World -> World -> Prop.
Hypothesis R_refl : forall w, R w w.
Hypothesis R_trans : forall w1 w2 w3, R w1 w2 -> R w2 w3 -> R w1 w3.

Lemma steps_ret {A} (a : A) : steps R (ret a).
Proof. intros w. apply R_refl. Qed.

Lemma steps_halt {A} why : steps R (@halt_with A why).
Proof. intros w. apply R_refl. Qed.

Lemma steps_get {A} (f : World -> A) : steps R (get f).
Proof. intros w. apply R_refl. Qed.

Lemma steps_modify (f : World -> World) : (forall w, R w (f w)) -> steps R (modify f).
Proof. intros H w. apply H. Qed.

Lemma steps_bind {A B} (m : M A) (k : A -> M B) :
  steps R m -> (forall a, steps R (k a)) -> steps R (bind m k).
Proof.
  intros Hm Hk w. unfold bind. specialize (Hm w).
  destruct (m w) as [a w1 | why w1]; [| exact Hm].
  eapply R_trans; [exact Hm | apply Hk].
Qed.

End Steps.

Lemma serve_unfold env cb cb_arg fg :
  serve env cb cb_arg fg = bind (create_signal_handler_thread env) (serve_from env cb cb_arg fg).
Proof. reflexivity. Qed.

Lemma create_handle_cases env w ok t w' :
  create_signal_handler_thread env w = Ret (ok, t) w' ->
  t = signal_handler_thread_main env \/ t = ret tt.
Proof.
  unfold create_signal_handler_thread.
  unfold bind at 1. destruct (create_signal_pipe env w) as [[|] w1 | why w1]; [| |discriminate].
  - cbn [negb]. unfold pthread_create_, set_system_error, tr_error_set.
    destruct (os_pthread_create env =? 0) eqn:Hc; exec; rewrite ?Hc; exec.
    + change (0 =? 0) with true. exec. intros H. injection H as _ <- _. left. reflexivity.
    + match goal with
      | |- context [destroy_signal_pipe ?w2] => destruct (destroy_signal_pipe w2)
      end; [| discriminate].
      intros H. injection H as _ <- _. right. reflexivity.
  - cbn [negb]. unfold ret. intros H. injection H as _ <- _. right. reflexivity.
Qed.

(** One step of a proof of [steps R m] along the structure of [m]:
    [hrefl] and [htrans] are the proofs that [R] is a preorder, [setter]
    proves [R w (f w)] for the updates [f] that [m] makes. *)
Ltac steps_step hrefl htrans setter :=
  match goal with
  | |- steps _ _ => solve [eauto 2]
  | |- steps _ (bind _ _) => apply (steps_bind _ htrans); [| intros ?]
  | |- steps _ (ret _) => apply (steps_ret _ hrefl)
  | |- steps _ (halt_with _) => apply (steps_halt _ hrefl)
  | |- steps _ (get _) => apply (steps_get _ hrefl)
  | |- steps _ (modify _) => apply steps_modify; intros ?; setter
  | |- steps _ (match ?x with _ => _ end) => destruct x
  | |- steps _ (let _ := _ in _) => cbv zeta
  | |- steps _ (?f _ _ _ _) => unfold f
  | |- steps _ (?f _ _ _) => unfold f
  | |- steps _ (?f _ _) => unfold f
  | |- steps _ (?f _) => unfold f
  | |- steps _ ?f => unfold f
  end.

Ltac steps_go hrefl htrans setter := repeat steps_step hrefl htrans setter.

(** The statements of [dtr_daemon] after the three assignments, for a
    relation [R0] that every part keeps but the call of [on_start], which
    keeps [R1]; [R1] absorbs [R0] on both sides. *)
Lemma steps_body (R0 R1 : World -> World -> Prop) env cb cb_arg fg :
  (forall w, R0 w w) ->
  (forall w1 w2 w3, R0 w1 w2 -> R0 w2 w3 -> R0 w1 w3) ->
  (forall w1 w2, R0 w1 w2 -> R1 w1 w2) ->
  (forall w1 w2 w3, R0 w1 w2 -> R1 w2 w3 -> R1 w1 w3) ->
  (forall w1 w2 w3, R1 w1 w2 -> R0 w2 w3 -> R1 w1 w3) ->
  steps R0 (create_signal_handler_thread env) ->
  (forall t, steps R0 t -> steps R0 (destroy_signal_handler_thread env t)) ->
  steps R0 (signal_handler_thread_main env) ->
  (forall sig, is_one_of_three sig = true -> steps R0 (setup_signal_handler env sig)) ->
  steps R1 (call_start env (on_start cb) cb_arg fg) ->
  (forall c, steps R0 (modify (set_exit_code c))) ->
  steps R0 (if negb fg then detach env else ret None) ->
  steps R1 (bind (if negb fg then detach env else ret None)
                 (fun early => match early with
                               | Some b => ret b
                               | None => serve env cb cb_arg fg
                               end)).
Proof.
  intros hrefl htrans hweak h01 h10 Hcreate Hdestroy Hmain Hsetup Hstart Hexit Hdetach.
  assert (forall A B (m : M A) (k : A -> M B),
             steps R0 m -> (forall a, steps R1 (k a)) -> steps R1 (bind m k)) as bind01.
  { intros A B m k Hm Hk w. unfold bind. specialize (Hm w).
    destruct (m w) as [a w1 | why w1]; [| apply hweak; exact Hm].
    eapply h01; [exact Hm | apply Hk]. }
  assert (forall A B (m : M A) (k : A -> M B),
             steps R1 m -> (forall a, steps R0 (k a)) -> steps R1 (bind m k)) as bind10.
  { intros A B m k Hm Hk w. unfold bind. specialize (Hm w).
    destruct (m w) as [a w1 | why w1]; [| exact Hm].
    eapply h10; [exact Hm | apply Hk]. }
  apply bind01; [exact Hdetach |].
  intros [b |]; [intros w; apply hweak, hrefl |].
  rewrite serve_unfold. intros w. unfold bind.
  pose proof (Hcreate w) as K.
  destruct (create_signal_handler_thread env w) as [[ok t] w1 | why w1] eqn:E;
    [| apply hweak; exact K].
  eapply h01; [exact K |]. cbn [world_of] in K.
  assert (steps R0 t) as Ht.
  { destruct (create_handle_cases env w ok t w1 E) as [-> | ->];
      [exact Hmain | apply (steps_ret _ hrefl)]. }
  clear K E. revert w1.
  change (steps R1 (serve_from env cb cb_arg fg (ok, t))).
  unfold serve_from. cbn [fst snd].
  destruct ok; cbn [negb]; [| intros w1; apply hweak, hrefl].
  assert (steps R0 (setup_signal_handler env SIGINT)) by (apply Hsetup; reflexivity).
  assert (steps R0 (setup_signal_handler env SIGTERM)) by (apply Hsetup; reflexivity).
  assert (steps R0 (setup_signal_handler env SIGHUP)) by (apply Hsetup; reflexivity).
  pose proof (Hdestroy t Ht).
  apply bind01; [unfold orelse, notM; steps_go hrefl htrans idtac |].
  intros [|].
  - intros w1. apply hweak. revert w1.
    change (steps R0 (bind (destroy_signal_handler_thread env t) (fun _ => ret false))).
    steps_go hrefl htrans idtac.
  - apply bind10; [exact Hstart |]. intros c. steps_go hrefl htrans idtac.
Qed.

(** The whole of [dtr_daemon], for a relation that every part keeps. *)
Lemma steps_dtr_daemon (R : World -> World -> Prop) env cb cb_arg fg :
  (forall w, R w w) ->
  (forall w1 w2 w3, R w1 w2 -> R w2 w3 -> R w1 w3) ->
  steps R (create_signal_handler_thread env) ->
  (forall t, steps R t -> steps R (destroy_signal_handler_thread env t)) ->
  steps R (signal_handler_thread_main env) ->
  (forall sig, is_one_of_three sig = true -> steps R (setup_signal_handler env sig)) ->
  steps R (call_start env (on_start cb) cb_arg fg) ->
  (forall c, steps R (modify (set_exit_code c))) ->
  steps R (if negb fg then detach env else ret None) ->
  (forall w, R w (enter cb cb_arg w)) ->
  steps R (dtr_daemon env cb cb_arg fg).
Proof.
  intros hrefl htrans Hcreate Hdestroy Hmain Hsetup Hstart Hexit Hdetach Henter w.
  rewrite dtr_daemon_entry. fold (enter cb cb_arg w).
  eapply htrans; [apply Henter |].
  apply (steps_body R R); auto.
Qed.

(** *** Foreground mode stays attached *)

Lemma attached_refl w : attached w w.
Proof.
  split; [reflexivity |]. exists []. split; [symmetry; apply app_nil_r | reflexivity].
Qed.

Lemma attached_trans w1 w2 w3 : attached w1 w2 -> attached w2 w3 -> attached w1 w3.
Proof.
  intros [S1 (e1 & T1 & P1)] [S2 (e2 & T2 & P2)]. split; [congruence |].
  exists (e1 ++ e2). split.
  - rewrite T2, T1. symmetry. apply app_assoc.
  - rewrite forallb_app, P1, P2. reflexivity.
Qed.

Ltac attached_setter :=
  unfold attached, logged_only; cbv beta; proj;
  split;
  [ reflexivity
  | first [ exists []; split; [symmetry; apply app_nil_r | reflexivity]
          | eexists; split; [reflexivity | reflexivity] ] ].

Ltac attached_go := steps_go attached_refl attached_trans attached_setter.

Lemma attached_signal_loop env fuel : steps attached (signal_loop env fuel).
Proof. induction fuel as [| k IH]; cbn [signal_loop]; attached_go. Qed.

Lemma attached_thread_main env : steps attached (signal_handler_thread_main env).
Proof. pose proof (attached_signal_loop env). attached_go. Qed.

Lemma attached_deliver_all env sigs : steps attached (deliver_all env sigs).
Proof. induction sigs as [| sig rest IH]; cbn [deliver_all]; attached_go. Qed.

(** In foreground mode [dtr_daemon] makes none of the calls that detach a
    process ([daemon], [fork], [setsid], [open], [dup2]) and leaves the
    session as it is, whatever else fails and however it ends. *)
Theorem dtr_daemon_foreground_stays_attached env cb cb_arg w :
  attached w (world_of (dtr_daemon env cb cb_arg true w)).
Proof.
  pose proof (attached_signal_loop env).
  pose proof (attached_thread_main env).
  pose proof (attached_deliver_all env).
  apply (steps_dtr_daemon attached); try (intros; attached_go; fail).
  - apply attached_refl.
  - apply attached_trans.
  - cbn [negb]. apply steps_ret, attached_refl.
  - intros w1. unfold enter. attached_setter.
Qed.

(** *** Signal dispositions *)

Lemma dispositions_refl env w : dispositions env w w.
Proof.
  exists []. split; [symmetry; apply app_nil_r |].
  intros sig. split; [discriminate | reflexivity].
Qed.

Lemma dispositions_trans env w1 w2 w3 :
  dispositions env w1 w2 -> dispositions env w2 w3 -> dispositions env w1 w3.
Proof.
  intros (e1 & T1 & H1) (e2 & T2 & H2). exists (e1 ++ e2). split.
  - rewrite T2, T1. symmetry. apply app_assoc.
  - intros sig. destruct (H1 sig) as [A1 B1]. destruct (H2 sig) as [A2 B2].
    unfold signalled in *. rewrite existsb_app. split.
    + intros H. apply orb_true_iff in H. destruct H as [H | H]; auto.
    + rewrite B2, B1.
      destruct (existsb _ e1), (existsb _ e2), (signal_succeeds env sig); reflexivity.
Qed.

Ltac dispositions_setter :=
  unfold dispositions; cbv beta; proj;
  first [ exists []; split; [symmetry; apply app_nil_r |]
        | eexists; split; [reflexivity |] ];
  intros ?; cbn [signalled existsb orb andb]; split; [discriminate | reflexivity].

Ltac dispositions_go env :=
  steps_go (dispositions_refl env) (dispositions_trans env) dispositions_setter.

Lemma dispositions_signal env sig :
  is_one_of_three sig = true ->
  steps (dispositions env) (signal_ env sig Handler_send_signal_to_pipe).
Proof.
  intros Hsig w. unfold signal_. exec.
  destruct (os_signal env sig) as [e |] eqn:E; exec;
    (exists [EvSignal sig]; split; [reflexivity |]);
    intros s; cbn [signalled existsb]; rewrite orb_false_r;
    (split; [intros H; apply Z.eqb_eq in H; subst s; exact Hsig |]);
    unfold signal_succeeds;
    destruct (Z.eqb_spec sig s) as [<- | Hne]; cbn [andb]; rewrite ?E; try reflexivity.
  - apply lookup_insert_eq.
  - apply lookup_insert_ne. exact Hne.
Qed.

Lemma dispositions_setup env sig :
  is_one_of_three sig = true -> steps (dispositions env) (setup_signal_handler env sig).
Proof.
  intros Hsig. pose proof (dispositions_signal env sig Hsig). dispositions_go env.
Qed.

Lemma dispositions_signal_loop env fuel : steps (dispositions env) (signal_loop env fuel).
Proof. induction fuel as [| k IH]; cbn [signal_loop]; dispositions_go env. Qed.

Lemma dispositions_thread_main env :
  steps (dispositions env) (signal_handler_thread_main env).
Proof. pose proof (dispositions_signal_loop env). dispositions_go env. Qed.

Lemma dispositions_deliver_all env sigs : steps (dispositions env) (deliver_all env sigs).
Proof. induction sigs as [| sig rest IH]; cbn [deliver_all]; dispositions_go env. Qed.

(** Whatever fails and however it ends, [dtr_daemon] calls [signal] for no
    signal but SIGHUP, SIGINT and SIGTERM, and at the end a signal is
    handled by [send_signal_to_pipe] if a call of [signal] for it succeeded
    and has the disposition it had before otherwise: what a successful
    registration installed is never removed or put back, also not when a
    later step fails. *)
Theorem dtr_daemon_dispositions env cb cb_arg fg w :
  dispositions env w (world_of (dtr_daemon env cb cb_arg fg w)).
Proof.
  pose proof (dispositions_signal_loop env).
  pose proof (dispositions_thread_main env).
  pose proof (dispositions_deliver_all env).
  pose proof (dispositions_setup env).
  apply (steps_dtr_daemon (dispositions env)); try (intros; dispositions_go env; fail).
  - apply dispositions_refl.
  - apply dispositions_trans.
  - intros w1. unfold enter. dispositions_setter.
Qed.

(** *** One call of [on_start] *)

Lemma logged_only_refl P w : logged_only P w w.
Proof. exists []. split; [symmetry; apply app_nil_r | reflexivity]. Qed.

Lemma logged_only_trans P w1 w2 w3 :
  logged_only P w1 w2 -> logged_only P w2 w3 -> logged_only P w1 w3.
Proof.
  intros (e1 & T1 & P1) (e2 & T2 & P2).
  exists (e1 ++ e2). split.
  - rewrite T2, T1. symmetry. apply app_assoc.
  - rewrite forallb_app, P1, P2. reflexivity.
Qed.

Ltac logged_setter :=
  unfold logged_only; cbv beta; proj;
  first [ exists []; split; [symmetry; apply app_nil_r | reflexivity]
        | eexists; split; [reflexivity | reflexivity] ].

Ltac quiet_go :=
  steps_go (logged_only_refl not_start) (logged_only_trans not_start) logged_setter.

Lemma quiet_signal_loop env fuel : steps (logged_only not_start) (signal_loop env fuel).
Proof. induction fuel as [| k IH]; cbn [signal_loop]; quiet_go. Qed.

Lemma quiet_thread_main env : steps (logged_only not_start) (signal_handler_thread_main env).
Proof. pose proof (quiet_signal_loop env). quiet_go. Qed.

Lemma quiet_deliver_all env sigs : steps (logged_only not_start) (deliver_all env sigs).
Proof. induction sigs as [| sig rest IH]; cbn [deliver_all]; quiet_go. Qed.

Lemma started_once_call_start env f arg fg :
  steps (started_once (CallStart f arg fg)) (call_start env f arg fg).
Proof.
  intros w. unfold call_start. exec.
  match goal with
  | |- context [deliver_all env ?l ?w1] =>
      destruct (quiet_deliver_all env l w1) as (evs & T & P);
      destruct (deliver_all env l w1) as [[] w2 | why w2]
  end; cbn [world_of] in *; proj; right; exists [], evs;
    (split; [rewrite T; proj; rewrite <- app_assoc; reflexivity | split; [reflexivity | exact P]]).
Qed.

(** Whatever fails and however it ends, one call of [dtr_daemon] calls a
    start function at most once, and then it is [cb->on_start] with [cb_arg]
    and [foreground]. *)
Theorem dtr_daemon_starts_once env cb cb_arg fg w :
  started_once (CallStart (on_start cb) cb_arg fg) w
    (world_of (dtr_daemon env cb cb_arg fg w)).
Proof.
  pose proof (quiet_signal_loop env).
  pose proof (quiet_thread_main env).
  pose proof (quiet_deliver_all env).
  rewrite dtr_daemon_entry. fold (enter cb cb_arg w).
  assert (forall c w1 w2 w3, logged_only not_start w1 w2 -> started_once c w2 w3 ->
                             started_once c w1 w3) as h01.
  { intros c w1 w2 w3 (e1 & T1 & P1) [Q | (pre & post & T2 & Q1 & Q2)].
    - left. apply (logged_only_trans _ w1 w2 w3); [exists e1; split; assumption | exact Q].
    - right. exists (e1 ++ pre), post. split; [| split; [| exact Q2]].
      + rewrite T2, T1, <- !app_assoc. reflexivity.
      + rewrite forallb_app, P1, Q1. reflexivity. }
  assert (forall c w1 w2 w3, started_once c w1 w2 -> logged_only not_start w2 w3 ->
                             started_once c w1 w3) as h10.
  { intros c w1 w2 w3 [Q | (pre & post & T1 & Q1 & Q2)] (e2 & T2 & P2).
    - left. apply (logged_only_trans _ w1 w2 w3); [exact Q | exists e2; split; assumption].
    - right. exists pre, (post ++ e2). split; [| split; [exact Q1 |]].
      + rewrite T2, T1, <- !app_assoc. reflexivity.
      + rewrite forallb_app, Q2, P2. reflexivity. }
  apply (h01 _ w (enter cb cb_arg w)); [unfold enter; logged_setter |].
  apply (steps_body (logged_only not_start) (started_once (CallStart (on_start cb) cb_arg fg)));
    try (intros; quiet_go; fail).
  - apply logged_only_refl.
  - apply logged_only_trans.
  - intros w1 w2 Q. left. exact Q.
  - apply h01.
  - apply h10.
  - apply started_once_call_start.
Qed.

(** *** The dispatch thread calls the table it was given *)

Lemma own_calls_refl cb arg w : own_calls cb arg w w.
Proof.
  intros Hc Ha. split; [exact Hc | split; [exact Ha |]].
  exists []. split; [symmetry; apply app_nil_r | constructor].
Qed.

Lemma own_calls_trans cb arg w1 w2 w3 :
  own_calls cb arg w1 w2 -> own_calls cb arg w2 w3 -> own_calls cb arg w1 w3.
Proof.
  intros H1 H2 Hc Ha. destruct (H1 Hc Ha) as (Hc2 & Ha2 & c1 & D1 & F1).
  destruct (H2 Hc2 Ha2) as (Hc3 & Ha3 & c2 & D2 & F2).
  split; [exact Hc3 | split; [exact Ha3 |]]. exists (c1 ++ c2). split.
  - rewrite D2, D1. symmetry. apply app_assoc.
  - apply Forall_app. split; assumption.
Qed.

Ltac own_calls_setter :=
  unfold own_calls; cbv beta; proj; intros ? ?;
  split; [assumption | split; [assumption |]];
  exists []; split; [symmetry; apply app_nil_r | constructor].

Ltac own_calls_go cb arg :=
  steps_go (own_calls_refl cb arg) (own_calls_trans cb arg) own_calls_setter.

Lemma own_calls_handle_signal env cb arg sig :
  steps (own_calls cb arg) (handle_signal env sig).
Proof.
  intros w Hc Ha. rewrite (handle_signal_calls env w cb sig Hc). cbn [world_of].
  unfold callback_for.
  destruct (sig =? SIGHUP); [| destruct ((sig =? SIGINT) || (sig =? SIGTERM))];
    unfold dispatch; proj;
    (split; [exact Hc | split; [exact Ha |]]).
  - eexists. split; [reflexivity |]. constructor; [| constructor]. right. rewrite Ha. reflexivity.
  - eexists. split; [reflexivity |]. constructor; [| constructor]. left. rewrite Ha. reflexivity.
  - exists []. split; [symmetry; apply app_nil_r | constructor].
Qed.

Lemma own_calls_signal_loop env cb arg fuel :
  steps (own_calls cb arg) (signal_loop env fuel).
Proof.
  pose proof (own_calls_handle_signal env cb arg).
  induction fuel as [| k IH]; cbn [signal_loop]; own_calls_go cb arg.
Qed.

Lemma own_calls_thread_main env cb arg :
  steps (own_calls cb arg) (signal_handler_thread_main env).
Proof. pose proof (own_calls_signal_loop env cb arg). own_calls_go cb arg. Qed.

Lemma own_calls_deliver_all env cb arg sigs :
  steps (own_calls cb arg) (deliver_all env sigs).
Proof. induction sigs as [| sig rest IH]; cbn [deliver_all]; own_calls_go cb arg. Qed.

(** Whatever the pipe delivers and whatever fails, the calls the dispatch
    thread makes during [dtr_daemon] are calls of [cb->on_stop] and
    [cb->on_reconfigure] with [cb_arg]: never [on_start], never a table or
    a context left by an earlier call. *)
Theorem dtr_daemon_dispatches_own_callbacks env cb cb_arg fg w :
  exists calls,
    dispatched (world_of (dtr_daemon env cb cb_arg fg w)) = dispatched w ++ calls /\
    Forall (fun e => e = CallVoid (on_stop cb) cb_arg \/
                     e = CallVoid (on_reconfigure cb) cb_arg) calls.
Proof.
  pose proof (own_calls_signal_loop env cb cb_arg).
  pose proof (own_calls_thread_main env cb cb_arg).
  pose proof (own_calls_deliver_all env cb cb_arg).
  rewrite dtr_daemon_entry. fold (enter cb cb_arg w).
  assert (steps (own_calls cb cb_arg)
            (bind (if negb fg then detach env else ret None)
                  (fun early => match early with
                                | Some b => ret b
                                | None => serve env cb cb_arg fg
                                end))) as S.
  { apply (steps_body (own_calls cb cb_arg) (own_calls cb cb_arg));
      try (intros; own_calls_go cb cb_arg; fail).
    - apply own_calls_refl.
    - apply own_calls_trans.
    - auto.
    - apply own_calls_trans.
    - apply own_calls_trans. }
  destruct (S (enter cb cb_arg w)) as (_ & _ & calls & D & F); [reflexivity | reflexivity |].
  exists calls. split; [exact D | exact F].
Qed.

(** *** Nothing is left open *)

Lemma serve_closes env cb cb_arg fg w cb' :
  callbacks w = Some cb' ->
  match serve env cb cb_arg fg w with
  | Ret _ w' =>
      fds w' = fds w /\
      thread w' = match os_pipe env with
                  | None => if os_pthread_create env =? 0 then Joined else thread w
                  | Some _ => thread w
                  end
  | Halt _ _ => True
  end.
Proof.
  intros Hcb. unfold serve. cbv beta iota delta [bind].
  destruct (os_pipe env) as [e |] eqn:Hp.
  { destruct (create_signal_handler_thread_pipe_fails env w e Hp) as (w1 & E & [S1 _ _ S4 _] & _).
    rewrite E. cbn [fst snd negb]. unfold ret. split; assumption. }
  destruct (Z.eq_dec (os_pthread_create env) 0) as [Hc | Hc].
  2:{ destruct (create_signal_handler_thread_no_thread env w Hp Hc)
        as (t & w1 & E & F1 & F2 & _).
      rewrite E. cbn [fst snd negb]. unfold ret.
      apply Z.eqb_neq in Hc. rewrite Hc. split; assumption. }
  destruct (create_signal_handler_thread_ok env w Hp Hc) as (w1 & E & U & _ & _ & _ & K).
  rewrite E, Hc. cbn [fst snd negb]. change (0 =? 0) with true.
  destruct (register_handlers env w1) as (failed & w2 & E2 & S2 & K2 & _).
  rewrite E2.
  destruct (channel_up_same _ _ _ U S2) as [U1 U2 _ U4].
  assert (callbacks w2 = Some cb') as Hcb2.
  { destruct K as [Ka _ _ _ _]. destruct K2 as [Kb _ _ _ _]. congruence. }
  destruct failed.
  - pose proof (destroy_signal_handler_thread_ends env (fds w) w2 cb' Hcb2 U1 U2 U4) as D.
    destruct (destroy_signal_handler_thread env (signal_handler_thread_main env) w2);
      [exact D | exact I].
  - unfold call_start. exec.
    match goal with
    | |- context [deliver_all env ?l ?w3] =>
        pose proof (deliver_all_outcome env l w3) as A;
        destruct (deliver_all env l w3) as [[] w4 | why w4]; [| exact I]
    end.
    cbn [fds signal_pipe thread callbacks set_trace] in A. destruct A as (A1 & A2 & A3 & A4).
    match goal with
    | |- context [destroy_signal_handler_thread env ?t ?w5] =>
        pose proof (destroy_signal_handler_thread_ends env (fds w) w5 cb') as D;
        destruct (destroy_signal_handler_thread env t w5); [apply D | exact I]
    end; proj; congruence.
Qed.

(** Whenever [dtr_daemon] returns in foreground mode, with success or with
    an error, the descriptor table is what it was before the call (both
    ends of the pipe are closed again), and the dispatch thread, if one was
    created, has been joined. *)
Theorem dtr_daemon_foreground_closes env cb cb_arg w :
  match dtr_daemon env cb cb_arg true w with
  | Ret _ w' =>
      fds w' = fds w /\
      thread w' = match os_pipe env with
                  | None => if os_pthread_create env =? 0 then Joined else thread w
                  | Some _ => thread w
                  end
  | Halt _ _ => True
  end.
Proof.
  rewrite dtr_daemon_entry. fold (enter cb cb_arg w). unfold bind. cbn [negb]. unfold ret.
  apply (serve_closes env cb cb_arg true (enter cb cb_arg w) cb). reflexivity.
Qed.

(** * [utils.h] *)

(** ** Strings *)

Lemma string_append_cons (c : Ascii.ascii) (s t : string) :
  String c s +:+ t = String c (s +:+ t).
Proof. reflexivity. Qed.

Lemma string_append_nil_l (t : string) : "" +:+ t = t.
Proof. reflexivity. Qed.

Ltac sapp :=
  repeat first
    [ rewrite string_append_cons
    | rewrite string_append_nil_l
    | progress cbn [String.length String.substring sv_remove_prefix
                    String.list_ascii_of_string String.get sv_find sv_empty negb andb Nat.add] ].

Lemma string_append_nil_r (s : string) : s +:+ "" = s.
Proof. induction s as [| c s IH]; sapp; [reflexivity | rewrite IH; reflexivity]. Qed.

Lemma string_append_assoc (s t u : string) : (s +:+ t) +:+ u = s +:+ (t +:+ u).
Proof. induction s as [| c s IH]; sapp; [reflexivity | rewrite IH; reflexivity]. Qed.

Lemma string_length_append (s t : string) :
  String.length (s +:+ t) = (String.length s + String.length t)%nat.
Proof. induction s as [| c s IH]; sapp; [reflexivity | rewrite IH; reflexivity]. Qed.

Lemma substring_0_append (s t : string) :
  String.substring 0 (String.length s) (s +:+ t) = s.
Proof.
  induction s as [| c s IH]; sapp.
  - destruct t; reflexivity.
  - rewrite IH. reflexivity.
Qed.

Lemma sv_remove_prefix_append (s t : string) :
  sv_remove_prefix (String.length s) (s +:+ t) = t.
Proof. induction s as [| c s IH]; sapp; [reflexivity | exact IH]. Qed.

Lemma sv_remove_prefix_all (s : string) : sv_remove_prefix (String.length s) s = "".
Proof. induction s as [| c s IH]; sapp; [reflexivity | exact IH]. Qed.

Lemma substring_remove_prefix (n : nat) (s : string) :
  String.substring 0 n s +:+ sv_remove_prefix n s = s.
Proof.
  revert n. induction s as [| c s IH]; intros [| n]; sapp; try reflexivity.
  rewrite IH. reflexivity.
Qed.

Lemma length_substring_0 (n : nat) (s : string) :
  (n <= String.length s)%nat -> String.length (String.substring 0 n s) = n.
Proof.
  revert n. induction s as [| c s IH]; intros [| n] Hn; sapp; cbn [String.length] in Hn;
    try reflexivity; try lia.
  rewrite IH by lia. reflexivity.
Qed.


Lemma in_string_append (c : Ascii.ascii) (s t : string) :
  In c (String.list_ascii_of_string (s +:+ t)) <->
  In c (String.list_ascii_of_string s) \/ In c (String.list_ascii_of_string t).
Proof.
  induction s as [| a s IH]; sapp; cbn [In].
  - tauto.
  - rewrite IH. tauto.
Qed.

(** *** [tr_strvPath] *)

Lemma tr_strvPath_fold (d : Ascii.ascii) (args : list string) (acc : string) :
  fold_left (fun setme a => (setme +:+ a) +:+ String d "") args acc =
  acc +:+ foldr (fun a r => a +:+ String d r) "" args.
Proof.
  revert acc. induction args as [| a args IH]; intros acc; cbn [fold_left foldr].
  - symmetry. apply string_append_nil_r.
  - rewrite IH, !string_append_assoc. reflexivity.
Qed.

Lemma tr_strvPath_trailing (d : Ascii.ascii) (arg : string) (args : list string) :
  foldr (fun a r => a +:+ String d r) "" (arg :: args) =
  String.concat (String d "") (arg :: args) +:+ String d "".
Proof.
  revert arg. induction args as [| b args IH]; intros arg.
  - reflexivity.
  - change (arg +:+ String d (foldr (fun a r => a +:+ String d r) "" (b :: args)) =
            (arg +:+ String d "" +:+ String.concat (String d "") (b :: args)) +:+ String d "").
    rewrite IH, !string_append_assoc. reflexivity.
Qed.

Lemma tr_strvPath_is_concat (d : Ascii.ascii) (arg : string) (args : list string) :
  tr_strvPath d arg args = String.concat (String d "") (arg :: args).
Proof.
  unfold tr_strvPath, string_resize.
  rewrite tr_strvPath_fold, tr_strvPath_trailing, string_append_nil_l.
  rewrite string_length_append. cbn [String.length].
  replace (String.length (String.concat (String d "") (arg :: args)) + 1 - 1)%nat
    with (String.length (String.concat (String d "") (arg :: args))) by lia.
  apply substring_0_append.
Qed.

(** [tr_strvPath] joins its arguments with exactly one delimiter between
    two neighbours and none after the last, empty arguments included; a
    single argument comes back unchanged. *)
Theorem tr_strvPath_concat (d : Ascii.ascii) (arg : string) (args : list string) :
  tr_strvPath d arg args = String.concat (String d "") (arg :: args) /\
  tr_strvPath d arg [] = arg /\
  String.length (tr_strvPath d arg args) =
    (sum_list_with String.length (arg :: args) + length args)%nat.
Proof.
  split; [apply tr_strvPath_is_concat |]. split; [apply tr_strvPath_is_concat |].
  rewrite tr_strvPath_is_concat.
  revert arg. induction args as [| b args IH]; intros arg.
  - cbn. lia.
  - change (String.concat (String d "") (arg :: b :: args))
      with (arg +:+ String d "" +:+ String.concat (String d "") (b :: args)).
    rewrite !string_length_append, IH. cbn. lia.
Qed.

(** *** [tr_buildBuf] *)




(** *** [tr_strvSep] *)


Lemma sv_find_none (d : Ascii.ascii) (sv : string) :
  sv_find d sv = None <-> ~ In d (String.list_ascii_of_string sv).
Proof.
  induction sv as [| c sv IH]; sapp; cbn [In]; [tauto |].
  destruct (Ascii.eqb_spec c d) as [-> | Hne].
  - split; [discriminate | intros H; exfalso; apply H; left; reflexivity].
  - destruct (sv_find d sv).
    + split; [discriminate | intros H; exfalso]. destruct IH as [_ IH].
      assert (Some n = None) by (apply IH; intros Hin; apply H; right; exact Hin).
      discriminate.
    + split; [| reflexivity]. intros _ [Heq | Hin]; [exact (Hne Heq) |].
      destruct IH as [IH _]. exact (IH eq_refl Hin).
Qed.

Lemma sv_find_some (d : Ascii.ascii) (sv : string) (p : nat) :
  sv_find d sv = Some p ->
  sv = String.substring 0 p sv +:+ String d (sv_remove_prefix (p + 1) sv) /\
  ~ In d (String.list_ascii_of_string (String.substring 0 p sv)).
Proof.
  revert p. induction sv as [| c sv IH]; intros p; sapp; [discriminate |].
  destruct (Ascii.eqb_spec c d) as [-> | Hne].
  - intros H. injection H as <-. sapp. split; [reflexivity | intros []].
  - destruct (sv_find d sv) as [q |]; [| discriminate].
    intros H. injection H as <-. destruct (IH q eq_refl) as [E N]. sapp. split.
    + rewrite <- E. reflexivity.
    + cbn [In]. intros [Heq | Hin]; [exact (Hne Heq) | exact (N Hin)].
Qed.

Lemma sv_find_append (d : Ascii.ascii) (tok rest : string) :
  ~ In d (String.list_ascii_of_string tok) ->
  sv_find d (tok +:+ String d rest) = Some (String.length tok).
Proof.
  induction tok as [| c tok IH]; sapp; cbn [In]; intros H.
  - rewrite Ascii.eqb_refl. reflexivity.
  - destruct (Ascii.eqb_spec c d) as [-> | Hne]; [exfalso; apply H; left; reflexivity |].
    rewrite IH; [reflexivity | intros Hin; apply H; right; exact Hin].
Qed.

Lemma sv_remove_prefix_past (d : Ascii.ascii) (tok rest : string) :
  sv_remove_prefix (String.length tok + 1) (tok +:+ String d rest) = rest.
Proof. induction tok as [| c tok IH]; sapp; [reflexivity | exact IH]. Qed.

Lemma tr_strvSep_append (d : Ascii.ascii) (tok rest : string) :
  ~ In d (String.list_ascii_of_string tok) ->
  tr_strvSep (tok +:+ String d rest) d = (tok, rest).
Proof.
  intros H. unfold tr_strvSep, sv_substr. rewrite (sv_find_append d tok rest H).
  cbn [sv_remove_prefix]. rewrite substring_0_append, sv_remove_prefix_past. reflexivity.
Qed.

Lemma tr_strvSep_whole (d : Ascii.ascii) (sv : string) :
  ~ In d (String.list_ascii_of_string sv) -> tr_strvSep sv d = (sv, "").
Proof.
  intros H. apply sv_find_none in H. unfold tr_strvSep, sv_substr. rewrite H.
  cbn [sv_remove_prefix]. rewrite sv_remove_prefix_all. reflexivity.
Qed.

(** [tr_strvSep] cuts the view at its first delimiter: the token holds no
    delimiter, and the view was the token, one delimiter and what is left;
    or the view holds no delimiter, the token is all of it and nothing is
    left. *)
Theorem tr_strvSep_first (sv : string) (delim : Ascii.ascii) :
  ~ In delim (String.list_ascii_of_string (fst (tr_strvSep sv delim))) /\
  (sv = fst (tr_strvSep sv delim) +:+ String delim (snd (tr_strvSep sv delim)) \/
   (~ In delim (String.list_ascii_of_string sv) /\ tr_strvSep sv delim = (sv, ""))).
Proof.
  destruct (sv_find delim sv) as [p |] eqn:E.
  - destruct (sv_find_some delim sv p E) as [Hsv Hno].
    assert (tr_strvSep sv delim = (String.substring 0 p sv, sv_remove_prefix (p + 1) sv)) as ->.
    { unfold tr_strvSep, sv_substr. rewrite E. reflexivity. }
    cbn [fst snd]. split; [exact Hno | left; exact Hsv].
  - apply sv_find_none in E. rewrite (tr_strvSep_whole delim sv E). cbn [fst snd].
    split; [exact E | right; split; [exact E | reflexivity]].
Qed.

(** Cutting is the inverse of putting a delimiter between a token without
    one and anything else. *)
Theorem tr_strvSep_joined (delim : Ascii.ascii) (token rest : string) :
  ~ In delim (String.list_ascii_of_string token) ->
  tr_strvSep (token +:+ String delim rest) delim = (token, rest).
Proof. apply tr_strvSep_append. Qed.

Lemma tr_strvSep_joined_witness :
  tr_strvSep "info.name=x" dot = ("info"%string, "name=x"%string).
Proof.
  apply (tr_strvSep_joined dot "info" "name=x").
  cbn. intros [H | [H | [H | [H | []]]]]; discriminate.
Defined.


(** Cutting a path that [tr_strvPath] built gives back its first component
    and the path of the others, when the first holds no delimiter. *)
Theorem tr_strvSep_of_path (d : Ascii.ascii) (arg next : string) (args : list string) :
  ~ In d (String.list_ascii_of_string arg) ->
  tr_strvSep (tr_strvPath d arg (next :: args)) d = (arg, tr_strvPath d next args).
Proof.
  intros H. rewrite !tr_strvPath_is_concat.
  change (String.concat (String d "") (arg :: next :: args))
    with (arg +:+ String d "" +:+ String.concat (String d "") (next :: args)).
  rewrite string_append_cons, string_append_nil_l.
  apply tr_strvSep_append. exact H.
Qed.

Lemma tr_strvSep_of_path_witness :
  tr_strvSep (tr_strvPath slash "usr" ["lib"; "x.so"]%string) slash =
    ("usr"%string, tr_strvPath slash "lib" ["x.so"%string]).
Proof.
  apply (tr_strvSep_of_path slash "usr" "lib" ["x.so"%string]).
  cbn. intros [H | [H | [H | []]]]; discriminate.
Defined.

(** *** [tr_strvStartsWith] and [tr_strvEndsWith] *)

Lemma tr_strvStartsWith_iff (sv key : string) :
  tr_strvStartsWith sv key = true <-> exists rest, sv = key +:+ rest.
Proof.
  unfold tr_strvStartsWith, sv_substr. cbn [sv_remove_prefix].
  rewrite andb_true_iff, Nat.leb_le, String.eqb_eq. split.
  - intros [_ E]. exists (sv_remove_prefix (String.length key) sv).
    rewrite <- E at 1. symmetry. apply substring_remove_prefix.
  - intros [rest ->]. split.
    + rewrite string_length_append. lia.
    + apply substring_0_append.
Qed.

Lemma tr_strvEndsWith_iff (sv key : string) :
  tr_strvEndsWith sv key = true <-> exists front, sv = front +:+ key.
Proof.
  unfold tr_strvEndsWith, sv_substr.
  rewrite andb_true_iff, Nat.leb_le, String.eqb_eq. split.
  - intros [_ E]. exists (String.substring 0 (String.length sv - String.length key) sv).
    rewrite <- (substring_remove_prefix (String.length sv - String.length key) sv) at 1.
    rewrite E. reflexivity.
  - intros [front ->]. split.
    + rewrite string_length_append. lia.
    + rewrite string_length_append.
      replace (String.length front + String.length key - String.length key)%nat
        with (String.length front) by lia.
      apply sv_remove_prefix_append.
Qed.

Lemma string_last (c : Ascii.ascii) (s : string) :
  exists front back, String c s = front +:+ String back "".
Proof.
  revert c. induction s as [| a s IH]; intros c.
  - exists ""%string, c. reflexivity.
  - destruct (IH a) as (front & back & E). exists (String c front), back.
    rewrite E. reflexivity.
Qed.

Lemma string_get_last (front : string) (back : Ascii.ascii) :
  String.get (String.length (front +:+ String back "") - 1) (front +:+ String back "")
  = Some back.
Proof.
  rewrite string_length_append. cbn [String.length].
  replace (String.length front + 1 - 1)%nat with (0 + String.length front)%nat by lia.
  rewrite <- String.append_correct2. reflexivity.
Qed.

(** [tr_strvStartsWith] says whether the view is the key followed by
    something; the overload for one character agrees with the overload for
    views on the key of that one character. *)
Theorem tr_strvStartsWith_prefix (sv key : string) (ch : Ascii.ascii) :
  (tr_strvStartsWith sv key = true <-> exists rest, sv = key +:+ rest) /\
  tr_strvStartsWith_char sv ch = tr_strvStartsWith sv (String ch "").
Proof.
  split; [apply tr_strvStartsWith_iff |].
  unfold tr_strvStartsWith_char, tr_strvStartsWith, sv_substr.
  destruct sv as [| c sv]; [reflexivity |]. sapp.
  destruct sv; sapp; destruct (Ascii.eqb_spec c ch) as [-> | Hne].
  - symmetry. apply String.eqb_refl.
  - symmetry. apply String.eqb_neq. congruence.
  - symmetry. apply String.eqb_refl.
  - symmetry. apply String.eqb_neq. congruence.
Qed.

(** [tr_strvEndsWith] says whether the view is something followed by the
    key; the overload for one character agrees with the overload for views
    on the key of that one character. *)
Theorem tr_strvEndsWith_suffix (sv key : string) (ch : Ascii.ascii) :
  (tr_strvEndsWith sv key = true <-> exists front, sv = front +:+ key) /\
  tr_strvEndsWith_char sv ch = tr_strvEndsWith sv (String ch "").
Proof.
  split; [apply tr_strvEndsWith_iff |].
  destruct sv as [| c sv]; [reflexivity |].
  destruct (string_last c sv) as (front & back & ->).
  unfold tr_strvEndsWith_char. rewrite string_get_last.
  assert (sv_empty (front +:+ String back "") = false) as -> by (destruct front; reflexivity).
  cbn [negb andb].
  destruct (Ascii.eqb_spec back ch) as [-> | Hne].
  - symmetry. apply tr_strvEndsWith_iff. exists front. reflexivity.
  - symmetry. apply not_true_is_false. intros H.
    apply tr_strvEndsWith_iff in H. destruct H as [front' E].
    assert (String.length front = String.length front') as L.
    { apply (f_equal String.length) in E. rewrite !string_length_append in E.
      cbn [String.length] in E. lia. }
    assert (forall a b : string, String.length a = String.length b ->
              forall x y, a +:+ String x "" = b +:+ String y "" -> x = y) as inj.
    { induction a as [| p a IH]; intros [| q b] Lab x y Hxy; try discriminate.
      - injection Hxy as ->. reflexivity.
      - rewrite !string_append_cons in Hxy. injection Hxy as _ Hxy.
        apply (IH b); [injection Lab as Lab; exact Lab | exact Hxy]. }
    apply Hne. exact (inj front front' L back ch E).
Qed.

(** ** Units *)

Lemma to_int_small (x : Z) : 0 <= x < 2 ^ 31 -> to_int x = x.
Proof.
  intros H. unfold to_int. rewrite Z.mod_small by lia.
  destruct (x <? 2 ^ 31) eqn:E; [reflexivity | apply Z.ltb_ge in E; lia].
Qed.

(** Converting megabytes to bytes and back gives the number of megabytes
    that was put in, read as an [int]: the same number below [2^31], that
    number less [2^32] from there on.  None of the products may wrap. *)
Theorem tr_toMemMB_of_toMemBytes (size_t_bits tr_mem_K MB : Z) :
  0 < tr_mem_K ->
  tr_mem_K * tr_mem_K < 2 ^ size_t_bits ->
  0 <= MB < 2 ^ 32 ->
  tr_mem_K * tr_mem_K * MB < 2 ^ 64 ->
  tr_toMemMB size_t_bits tr_mem_K (tr_toMemBytes tr_mem_K MB) =
    Some (if MB <? 2 ^ 31 then MB else MB - 2 ^ 32).
Proof.
  intros HK Hsz HMB Hprod. unfold tr_toMemMB, tr_toMemBytes, to_unsigned.
  assert (0 < tr_mem_K * tr_mem_K) as Hpos by nia.
  rewrite (Z.mod_small (tr_mem_K * tr_mem_K) (2 ^ size_t_bits)) by lia.
  destruct (tr_mem_K * tr_mem_K =? 0) eqn:E; [apply Z.eqb_eq in E; lia |].
  f_equal.
  destruct (Z.eq_dec MB 0) as [-> | Hnz].
  - rewrite Z.mul_0_r, Z.mod_0_l by lia. rewrite Z.div_0_l by lia. reflexivity.
  - assert (tr_mem_K * tr_mem_K < 2 ^ 64) as Hkk by nia.
    rewrite (Z.mod_small (tr_mem_K * tr_mem_K) (2 ^ 64)) by lia.
    rewrite (Z.mod_small (tr_mem_K * tr_mem_K * MB) (2 ^ 64)) by nia.
    rewrite Z.mul_comm, Z.div_mul by lia.
    unfold to_int. rewrite Z.mod_small by lia. reflexivity.
Qed.

Lemma tr_toMemMB_of_toMemBytes_witness :
  tr_toMemMB 64 1024 (tr_toMemBytes 1024 4095) = Some 4095 /\
  tr_toMemMB 64 1000 (tr_toMemBytes 1000 3000000000) = Some (-1294967296).
Proof.
  split.
  - apply (tr_toMemMB_of_toMemBytes 64 1024 4095); lia.
  - apply (tr_toMemMB_of_toMemBytes 64 1000 3000000000); lia.
Defined.

(** [tr_toSpeedBytes] returns the product modulo [2^32], whatever the width
    of [size_t]: the exact number of bytes when that is below [2^32], and a
    wrapped one otherwise, also where the product itself is computed in 64
    bits. *)
Theorem tr_toSpeedBytes_wraps (size_t_bits tr_speed_K KBps : Z) :
  tr_toSpeedBytes size_t_bits tr_speed_K KBps = (KBps * tr_speed_K) mod 2 ^ 32 /\
  (0 <= KBps * tr_speed_K < 2 ^ 32 ->
   tr_toSpeedBytes size_t_bits tr_speed_K KBps = KBps * tr_speed_K).
Proof.
  assert (tr_toSpeedBytes size_t_bits tr_speed_K KBps = (KBps * tr_speed_K) mod 2 ^ 32) as E.
  { unfold tr_toSpeedBytes, to_unsigned, common_bits.
    assert (32 <= Z.max 32 size_t_bits) as Hb by lia.
    set (b := Z.max 32 size_t_bits) in *.
    replace (2 ^ b) with (2 ^ 32 * 2 ^ (b - 32))
      by (rewrite <- Z.pow_add_r by lia; f_equal; lia).
    rewrite Z.rem_mul_r by lia.
    rewrite (Z.mul_comm (2 ^ 32)), Z.mod_add by lia. apply Z.mod_mod. lia. }
  split; [exact E |]. intros H. rewrite E. apply Z.mod_small. exact H.
Qed.
